(** * Render memoization in the [Home] / [Component1] / [Component2] demo

    A shallow embedding of the demo application: the two leaf display
    units, the root unit [Home] in each of the variants the narrative walks
    through, and the part of the UI framework they call ([useState],
    [useMemo], [useCallback], [memo], [console.log], [JSON.stringify]). *)

From Stdlib Require Import String Ascii List Bool Arith Lia.
Import ListNotations.
Local Open Scope list_scope.
Local Open Scope string_scope.
Set Warnings "-register-all,-notation-for-abbreviation".

(** ** JavaScript values, references and the object store *)

Module JS.

(** An object or a function is handled through its reference; two
    separately allocated objects have different references. *)
Definition ref := nat.

(** What the program stores in a variable or passes as a prop: a
    primitive string, or a reference to an object or a function. *)
Inductive value :=
| VStr (s : string)
| VRef (r : ref).

(** [Object.is] on these values: strings by content, objects and
    functions by reference identity. *)
Definition Object_is (a b : value) : bool :=
  match a, b with
  | VStr s, VStr t => String.eqb s t
  | VRef r, VRef q => Nat.eqb r q
  | _, _ => false
  end.

(** The content of an object, as far as [JSON.stringify] looks at it.
    Numbers are left out: the program builds none. *)
Inductive json :=
| JNull
| JBool (b : bool)
| JStr (s : string)
| JArr (items : list json)
| JObj (fields : list (string * json)).

(** A cell of the store: an object literal or a function. *)
Inductive cell :=
| CObj (fields : list (string * json))
| CFun.

(** The store only ever grows: the program allocates objects and
    functions and never assigns to a property. *)
Definition heap := list cell.

Definition lookup (h : heap) (r : ref) : option cell := nth_error h r.

Definition quote : string := String (ascii_of_nat 34) EmptyString.
Definition backslash : string := String (ascii_of_nat 92) EmptyString.

Definition hex_digit (n : nat) : string :=
  String (nth n (list_ascii_of_string "0123456789abcdef") "0"%char) EmptyString.

(** The escape of one character inside a JSON string literal. *)
Definition escape_char (c : ascii) : string :=
  let n := nat_of_ascii c in
  if Nat.eqb n 34 then backslash ++ quote
  else if Nat.eqb n 92 then backslash ++ backslash
  else if Nat.eqb n 8 then backslash ++ "b"
  else if Nat.eqb n 9 then backslash ++ "t"
  else if Nat.eqb n 10 then backslash ++ "n"
  else if Nat.eqb n 12 then backslash ++ "f"
  else if Nat.eqb n 13 then backslash ++ "r"
  else if Nat.ltb n 32 then backslash ++ "u00" ++ hex_digit (n / 16) ++ hex_digit (n mod 16)
  else String c EmptyString.

Fixpoint escape (s : string) : string :=
  match s with
  | EmptyString => EmptyString
  | String c s' => escape_char c ++ escape s'
  end.

Definition quoted (s : string) : string := quote ++ escape s ++ quote.

Fixpoint join (sep : string) (l : list string) : string :=
  match l with
  | [] => EmptyString
  | [x] => x
  | x :: l' => x ++ sep ++ join sep l'
  end.

(** [JSON.stringify] without indentation. *)
Fixpoint stringify (j : json) : string :=
  match j with
  | JNull => "null"
  | JBool true => "true"
  | JBool false => "false"
  | JStr s => quoted s
  | JArr items => "[" ++ join "," (map stringify items) ++ "]"
  | JObj fields =>
      "{" ++ join "," (map (fun kv => quoted (fst kv) ++ ":" ++ stringify (snd kv))
                           fields) ++ "}"
  end.

End JS.
Import JS.

(** ** The render monad: the object store and the console *)

(** One call of [console.log(tag, { ... })]: the tag and the logged
    fields. *)
Record logline := Logline { tag : string; logged : list (string * value) }.

Record world := World { store : heap; console : list logline }.

Definition M (A : Type) : Type := world -> A * world.

Definition ret {A} (a : A) : M A := fun w => (a, w).

Definition bind {A B} (m : M A) (k : A -> M B) : M B :=
  fun w => let (a, w') := m w in k a w'.

Notation "x <- m ;; k" := (bind m (fun x => k))
  (at level 61, m at next level, right associativity).
Notation "m ;; k" := (bind m (fun _ => k))
  (at level 61, right associativity).
Notation "' pat <- m ;; k" := (bind m (fun x => match x with pat => k end))
  (at level 61, pat pattern, m at next level, right associativity).

(** Allocation of a fresh object or function: its reference is the next
    free address. *)
Definition alloc (c : cell) : M ref :=
  fun w => (length (store w), World (store w ++ [c])%list (console w)).

Definition console_log (t : string) (fields : list (string * value)) : M unit :=
  fun w => (tt, World (store w) (console w ++ [Logline t fields])%list).

(** [JSON.stringify(r)] of a referenced value; [None] is JavaScript's
    [undefined], the result for a function. *)
Definition JSON_stringify (r : ref) : M (option string) :=
  fun w => (match lookup (store w) r with
            | Some (CObj fields) => Some (stringify (JObj fields))
            | _ => None
            end, w).

(** ** Rendered elements *)

(** The two state cells of the root, which name the inputs and their
    change handlers. *)
Inductive field := Name | Surname.

Inductive element :=
| Text (s : string)
| Label (children : list element)
| P (children : list element)
| Div (className : option string) (children : list element)
| Fragment (children : list element)
| Input (value : string) (onChange : field).

(** A JSX expression container [{e}]: a string is a text child, and
    [undefined] renders nothing. *)
Definition expr (v : option string) : element :=
  match v with
  | Some s => Text s
  | None => Fragment []
  end.

Fixpoint textContent (e : element) : string :=
  match e with
  | Text s => s
  | Label cs | P cs | Div _ cs | Fragment cs =>
      (fix go (l : list element) : string :=
         match l with
         | [] => EmptyString
         | c :: l' => textContent c ++ go l'
         end) cs
  | Input _ _ => EmptyString
  end.

(** The children below the wrapper element of a leaf's output. *)
Definition content (e : element) : list element :=
  match e with
  | Div _ cs | Fragment cs => cs
  | _ => [e]
  end.

(** ** The framework primitives the program calls *)

Module React.

(** A props object, and the object handed to [console.log]: its own
    keys with their values, in order. *)
Definition object := list (string * value).

Fixpoint get (k : string) (o : object) : option value :=
  match o with
  | [] => None
  | (k', v) :: o' => if String.eqb k k' then Some v else get k o'
  end.

(** Modelled from the spec: the framework's shallow comparison, which the
    program calls through [memo] and does not define. It is a key-by-key
    comparison of two props objects: the same number of keys, and every key
    of the first present in the second with a value that is equal as a
    primitive or identical as a reference ([Object.is]). *)
Definition shallowEqual (a b : object) : bool :=
  Nat.eqb (length a) (length b) &&
  forallb (fun kv => match get (fst kv) b with
                     | Some v => Object_is (snd kv) v
                     | None => false
                     end) a.

(** A typed props interface, seen as the props object it describes. *)
Class PropSet (P : Type) := props_object : P -> object.

(** What [memo] keeps for a mounted component: the props of the previous
    invocation and the output of the last render; [None] before mount. *)
Definition fiber (P : Type) : Type := option (P * element).

(** Modelled from the spec: the framework's render-memoization guard
    [memo], which every leaf is wrapped in and the program does not define.
    When [memo(C)] receives the props [p], the render of [C] is skipped and
    its previous output reused if [p] is shallowly equal to the props of the
    previous invocation; otherwise [C] renders. *)
Definition memo {P} `{PropSet P} (C : P -> M element)
    (fb : fiber P) (p : P) : M (fiber P * element) :=
  match fb with
  | Some (prev, out) =>
      if shallowEqual (props_object prev) (props_object p)
      then ret (Some (p, out), out)
      else out' <- C p ;; ret (Some (p, out'), out')
  | None => out' <- C p ;; ret (Some (p, out'), out')
  end.

(** The single slot of a [useMemo] or [useCallback] hook: the dependency
    list of the render that filled it, and the cached reference. *)
Definition slot : Type := option (list value * ref).

(** Modelled from the spec: the comparison of two dependency lists,
    element by element with [Object.is]. *)
Fixpoint areHookInputsEqual (next prev : list value) : bool :=
  match next, prev with
  | [], [] => true
  | a :: next', b :: prev' => Object_is a b && areHookInputsEqual next' prev'
  | _, _ => false
  end.

(** Modelled from the spec: the framework's dependency-keyed cache
    [useMemo(create, deps)], which the program calls and does not define.
    [create] runs at mount and when a listed dependency changed; otherwise
    the cached reference is returned. *)
Definition useMemo (create : M ref) (deps : list value) (s : slot) : M (ref * slot) :=
  match s with
  | Some (prevDeps, cached) =>
      if areHookInputsEqual deps prevDeps
      then ret (cached, s)
      else r <- create ;; ret (r, Some (deps, r))
  | None => r <- create ;; ret (r, Some (deps, r))
  end.

(** Modelled from the spec: the framework's [useCallback(fn, deps)], which
    the program calls and does not define. [fn] is the function this render
    has just allocated; it is kept at mount and when a listed dependency
    changed, and dropped for the cached one otherwise. *)
Definition useCallback (fn : ref) (deps : list value) (s : slot) : M (ref * slot) :=
  match s with
  | Some (prevDeps, cached) =>
      if areHookInputsEqual deps prevDeps
      then ret (cached, s)
      else ret (fn, Some (deps, fn))
  | None => ret (fn, Some (deps, fn))
  end.

(** Modelled from the spec: the setter of a [useState] cell, which the
    program calls and does not define. The cell is a single slot set to the
    new string on edit; the setter asks for a re-render unless the new value
    is [Object.is]-equal to the current one, in which case nothing is
    rendered below [Home]. [None] is that bail-out. *)
Definition setState (current next : string) : option string :=
  if Object_is (VStr current) (VStr next) then None else Some next.

End React.
Import React.

(** ** The leaf display units *)

(** [Component1], props [{ name }]. *)
Module NameProps.

Record Props := { name : string }.

#[global] Instance Props_object : PropSet Props :=
  fun p => [("name", VStr (name p))].

(** The variant that wraps its output in a [div]. *)
Module Div.
Definition Component1 (p : Props) : M element :=
  console_log "Component1 :: render" [("name", VStr (name p))] ;;
  ret (Div None
         [ Label [Text "Component1: "];
           P [Text "Name: "; Text (name p)] ]).
End Div.

(** The variant that wraps its output in a fragment. *)
Module Frag.
Definition Component1 (p : Props) : M element :=
  console_log "Component1 :: render" [("name", VStr (name p))] ;;
  ret (Fragment
         [ Label [Text "Component1: "];
           P [Text "Name: "; Text (name p)] ]).
End Frag.

End NameProps.

(** [Component2], props [{ surname }]. *)
Module SurnameProps.

Record Props := { surname : string }.

#[global] Instance Props_object : PropSet Props :=
  fun p => [("surname", VStr (surname p))].

Definition Component2 (p : Props) : M element :=
  console_log "Component2 :: render" [("surname", VStr (surname p))] ;;
  ret (Div None
         [ Label [Text "Component2: "];
           P [Text "Surname: "; Text (surname p)] ]).

End SurnameProps.

(** [Component2], props [{ surname, data }]. *)
Module DataProps.

Record Props := { surname : string; data : ref }.

#[global] Instance Props_object : PropSet Props :=
  fun p => [("surname", VStr (surname p)); ("data", VRef (data p))].

Definition Component2 (p : Props) : M element :=
  console_log "Component2 :: render"
    [("surname", VStr (surname p)); ("data", VRef (data p))] ;;
  json <- JSON_stringify (data p) ;;
  ret (Div None
         [ Label [Text "Component2: "];
           P [Text "Surname: "; Text (surname p)];
           P [Text "Data: "; expr json] ]).

End DataProps.

(** [Component2], props [{ surname, data, func }]. *)
Module FuncProps.

Record Props := { surname : string; data : ref; func : ref }.

#[global] Instance Props_object : PropSet Props :=
  fun p => [("surname", VStr (surname p)); ("data", VRef (data p));
            ("func", VRef (func p))].

Module Div.
Definition Component2 (p : Props) : M element :=
  console_log "Component2 :: render"
    [("surname", VStr (surname p)); ("data", VRef (data p));
     ("func", VRef (func p))] ;;
  json <- JSON_stringify (data p) ;;
  ret (Div None
         [ Label [Text "Component2: "];
           P [Text "Surname: "; Text (surname p)];
           P [Text "Data: "; expr json] ]).
End Div.

Module Frag.
Definition Component2 (p : Props) : M element :=
  console_log "Component2 :: render"
    [("surname", VStr (surname p)); ("data", VRef (data p));
     ("func", VRef (func p))] ;;
  json <- JSON_stringify (data p) ;;
  ret (Fragment
         [ Label [Text "Component2: "];
           P [Text "Surname: "; Text (surname p)];
           P [Text "Data: "; expr json] ]).
End Frag.

End FuncProps.

(** ** The root unit *)

Module Root.

(** The hook slots of [Home] below its two state cells: the [useMemo] of
    [data] and the [useCallback] of [func]. A variant that does not call a
    hook leaves its slot empty. *)
Record hooks := { data_slot : slot; func_slot : slot }.

Section Home.

(** The variant's [Component2] with its props interface, and the part of
    [Home] that differs between the variants: the hooks it calls and the
    attribute expressions of [<Component2 ... />]. *)
Context {P2 : Type} `{PropSet P2}.
Variable Component1 : NameProps.Props -> M element.
Variable Component2 : P2 -> M element.
Variable props2 : string -> hooks -> M (P2 * hooks).

(** What React keeps of a mounted [Home]: the two [useState] cells, the
    hook slots, the two memoized children and the rendered output. *)
Record state := {
  name : string;
  surname : string;
  slots : hooks;
  child1 : fiber NameProps.Props;
  child2 : fiber P2;
  view : element
}.

(** One evaluation of [Home] with the current state cells, followed by
    the render of its children. *)
Definition Home (st : state) : M state :=
  '(p2, hk) <- props2 (surname st) (slots st) ;;
  '(c1, out1) <- memo Component1 (child1 st) {| NameProps.name := name st |} ;;
  '(c2, out2) <- memo Component2 (child2 st) p2 ;;
  ret {| name := name st; surname := surname st; slots := hk;
         child1 := c1; child2 := c2;
         view := Div (Some "container")
                   [ Label [Text "Name: "];
                     Input (name st) Name;
                     Label [Text "Surname: "];
                     Input (surname st) Surname;
                     out1;
                     out2 ] |}.

Definition setName (v : string) (st : state) : option state :=
  match setState (name st) v with
  | Some v' => Some {| name := v'; surname := surname st; slots := slots st;
                       child1 := child1 st; child2 := child2 st; view := view st |}
  | None => None
  end.

Definition setSurname (v : string) (st : state) : option state :=
  match setState (surname st) v with
  | Some v' => Some {| name := name st; surname := v'; slots := slots st;
                       child1 := child1 st; child2 := child2 st; view := view st |}
  | None => None
  end.

(** The [onChange] handler of the input bound to [f], called with
    [e.target.value]. *)
Definition onChange (f : field) (v : string) : state -> option state :=
  match f with
  | Name => setName v
  | Surname => setSurname v
  end.

(** The mounted application: the state of [Home] and the world. *)
Definition app : Type := state * world.

(** Mount: both cells start as [useState('')] and [Home] renders. *)
Definition mount : app :=
  Home {| name := EmptyString; surname := EmptyString;
          slots := {| data_slot := None; func_slot := None |};
          child1 := None; child2 := None; view := Fragment [] |}
       (World [] []).

(** A change event of one input with the input's new text: the handler
    runs, and [Home] re-renders unless the setter bailed out. *)
Definition change (f : field) (v : string) (a : app) : app :=
  match onChange f v (fst a) with
  | Some st => Home st (snd a)
  | None => a
  end.

Definition run (evs : list (field * string)) (a : app) : app :=
  fold_left (fun a ev => change (fst ev) (snd ev) a) evs a.

End Home.

Arguments state P2 : clear implicits.
Arguments app P2 : clear implicits.

(** The number of times a leaf's render function has run: its log lines. *)
Definition renders (t : string) (w : world) : nat :=
  length (filter (fun l => String.eqb (tag l) t) (console w)).

(** *** The variants of [Home] *)

(** [<Component2 surname={surname} />]. *)
Module Plain.
Import SurnameProps.
Definition props2 (surname : string) (hk : hooks) : M (Props * hooks) :=
  ret ({| surname := surname |}, hk).
Definition Home := Home NameProps.Div.Component1 Component2 props2.
Definition mount := mount NameProps.Div.Component1 Component2 props2.
Definition change := change NameProps.Div.Component1 Component2 props2.
Definition run := run NameProps.Div.Component1 Component2 props2.
End Plain.

(** [<Component2 surname={surname} data={{}} />]: a new object on every
    evaluation of [Home]. With [const data = {}] in the body of [Home] and
    [data={data}] the evaluation does the same. *)
Module InlineData.
Import DataProps.
Definition props2 (surname : string) (hk : hooks) : M (Props * hooks) :=
  data <- alloc (CObj []) ;;
  ret ({| surname := surname; data := data |}, hk).
Definition Home := Home NameProps.Div.Component1 Component2 props2.
Definition mount := mount NameProps.Div.Component1 Component2 props2.
Definition change := change NameProps.Div.Component1 Component2 props2.
Definition run := run NameProps.Div.Component1 Component2 props2.
End InlineData.

(** [const data = useMemo(() => ({ surname }), [surname])] with
    [<Component2 surname={surname} data={data} />]. *)
Module MemoData.
Import DataProps.
Definition props2 (surname : string) (hk : hooks) : M (Props * hooks) :=
  '(data, s) <- useMemo (alloc (CObj [("surname", JStr surname)]))
                        [VStr surname] (data_slot hk) ;;
  ret ({| surname := surname; data := data |},
       {| data_slot := s; func_slot := func_slot hk |}).
Definition Home := Home NameProps.Div.Component1 Component2 props2.
Definition mount := mount NameProps.Div.Component1 Component2 props2.
Definition change := change NameProps.Div.Component1 Component2 props2.
Definition run := run NameProps.Div.Component1 Component2 props2.
End MemoData.

(** The memoized [data] with
    [<Component2 surname={surname} data={data} func={() => undefined} />]:
    a new function on every evaluation of [Home]. *)
Module InlineFunc.
Import FuncProps.
Definition props2 (surname : string) (hk : hooks) : M (Props * hooks) :=
  '(data, s) <- useMemo (alloc (CObj [("surname", JStr surname)]))
                        [VStr surname] (data_slot hk) ;;
  func <- alloc CFun ;;
  ret ({| surname := surname; data := data; func := func |},
       {| data_slot := s; func_slot := func_slot hk |}).
Definition Home := Home NameProps.Div.Component1 Div.Component2 props2.
Definition mount := mount NameProps.Div.Component1 Div.Component2 props2.
Definition change := change NameProps.Div.Component1 Div.Component2 props2.
Definition run := run NameProps.Div.Component1 Div.Component2 props2.
End InlineFunc.

(** The final code: [useMemo] for [data], [useCallback(() => undefined, [])]
    for [func], and [<Component2 surname={surname} data={data} func={func} />]. *)
Module Final.
Import FuncProps.
Definition props2 (surname : string) (hk : hooks) : M (Props * hooks) :=
  '(data, s1) <- useMemo (alloc (CObj [("surname", JStr surname)]))
                         [VStr surname] (data_slot hk) ;;
  fn <- alloc CFun ;;
  '(func, s2) <- useCallback fn [] (func_slot hk) ;;
  ret ({| surname := surname; data := data; func := func |},
       {| data_slot := s1; func_slot := s2 |}).
Definition Home := Home NameProps.Div.Component1 Div.Component2 props2.
Definition mount := mount NameProps.Div.Component1 Div.Component2 props2.
Definition change := change NameProps.Div.Component1 Div.Component2 props2.
Definition run := run NameProps.Div.Component1 Div.Component2 props2.
End Final.

End Root.

(** ** Observations on the program *)

(** The world after one more [console.log]. *)
Definition logged_world (w : world) (t : string) (o : object) : world :=
  World (store w) (console w ++ [Logline t o])%list.

(** A leaf is a function of its props and of the store: it logs its props
    once under its tag and returns its output, and the store is left as it
    was. *)
Class Leaf {P} `{PropSet P} (C : P -> M element) := {
  leaf_tag : string;
  leaf_view : heap -> P -> element;
  leaf_run : forall p w,
    C p w = (leaf_view (store w) p, logged_world w leaf_tag (props_object p))
}.

#[global] Instance Leaf_Component1_div : Leaf NameProps.Div.Component1 := {|
  leaf_tag := "Component1 :: render";
  leaf_view := fun _ p => fst (NameProps.Div.Component1 p (World [] []));
  leaf_run := fun p w => eq_refl
|}.

#[global] Instance Leaf_Component1_frag : Leaf NameProps.Frag.Component1 := {|
  leaf_tag := "Component1 :: render";
  leaf_view := fun _ p => fst (NameProps.Frag.Component1 p (World [] []));
  leaf_run := fun p w => eq_refl
|}.

#[global] Instance Leaf_Component2_surname : Leaf SurnameProps.Component2 := {|
  leaf_tag := "Component2 :: render";
  leaf_view := fun _ p => fst (SurnameProps.Component2 p (World [] []));
  leaf_run := fun p w => eq_refl
|}.

#[global] Instance Leaf_Component2_data : Leaf DataProps.Component2 := {|
  leaf_tag := "Component2 :: render";
  leaf_view := fun h p => fst (DataProps.Component2 p (World h []));
  leaf_run := fun p w => eq_refl
|}.

#[global] Instance Leaf_Component2_div : Leaf FuncProps.Div.Component2 := {|
  leaf_tag := "Component2 :: render";
  leaf_view := fun h p => fst (FuncProps.Div.Component2 p (World h []));
  leaf_run := fun p w => eq_refl
|}.

#[global] Instance Leaf_Component2_frag : Leaf FuncProps.Frag.Component2 := {|
  leaf_tag := "Component2 :: render";
  leaf_view := fun h p => fst (FuncProps.Frag.Component2 p (World h []));
  leaf_run := fun p w => eq_refl
|}.

(** Objects allocated elsewhere in the program between two updates. *)
Definition allocs (cs : list cell) : M unit :=
  fun w => (tt, World (store w ++ cs)%list (console w)).

(** The memoized leaf [memo(C)] receives the props of each update in turn;
    before an update the store may have grown by the cells [cs]. *)
Fixpoint supply {P} `{PropSet P} (C : P -> M element)
    (fb : fiber P) (us : list (list cell * P)) : M (fiber P) :=
  match us with
  | [] => ret fb
  | (cs, p) :: us' =>
      allocs cs ;;
      '(fb', _) <- memo C fb p ;;
      supply C fb' us'
  end.

(** Every reference held by the object points into the store. *)
Definition in_store (h : heap) (o : object) : bool :=
  forallb (fun kv => match snd kv with
                     | VRef r => Nat.ltb r (length h)
                     | VStr _ => true
                     end) o.

(** The props of every update refer to objects that exist when the update
    is made. *)
Fixpoint well_formed {P} `{PropSet P} (h : heap) (us : list (list cell * P)) : bool :=
  match us with
  | [] => true
  | (cs, p) :: us' =>
      in_store (h ++ cs)%list (props_object p) && well_formed (h ++ cs)%list us'
  end.

(** The output a mounted leaf currently shows. *)
Definition shown {P} (fb : fiber P) : option element := option_map snd fb.

(** After the updates [us] and then [(cs, p)], the mounted leaf shows what
    a render of its current props [p] returns in the current world. *)
Definition shows_current {P} `{PropSet P} (C : P -> M element)
    (us : list (list cell * P)) (cs : list cell) (p : P) (w : world) : Prop :=
  shown (fst (supply C None (us ++ [(cs, p)])%list w)) =
  Some (fst (C p (snd (supply C None (us ++ [(cs, p)])%list w)))).

(** The fiber holds the render of its props in the current store. *)
Definition fiber_ok {P} `{PropSet P} (C : P -> M element) `{!Leaf C}
    (fb : fiber P) (w : world) : Prop :=
  match fb with
  | None => True
  | Some (p, out) =>
      in_store (store w) (props_object p) = true /\ out = leaf_view (store w) p
  end.

(** Reading the screen: the outputs of the two leaves in what [Home]
    shows, and the value a leaf displays after its label. *)
Definition leaf1 (e : element) : option element := nth_error (content e) 4.
Definition leaf2 (e : element) : option element := nth_error (content e) 5.

Definition displayed (out : option element) : option string :=
  match out with
  | Some e => match content e with
              | _ :: P [_; Text v] :: _ => Some v
              | _ => None
              end
  | None => None
  end.

(** The successive values of an input under a run of keystrokes: each
    differs from the text the input held before it. *)
Fixpoint keystrokes (current : string) (vs : list string) : bool :=
  match vs with
  | [] => true
  | v :: vs' => negb (String.eqb current v) && keystrokes v vs'
  end.

Definition edits (f : field) (vs : list string) : list (field * string) :=
  map (pair f) vs.

(** [Component2] is mounted with props that [J] relates to the current
    surname and hook slots. *)
Definition settled {P2} (J : string -> Root.hooks -> P2 -> Prop)
    (a : Root.app P2) : Prop :=
  exists p out, Root.child2 (fst a) = Some (p, out) /\
                J (Root.surname (fst a)) (Root.slots (fst a)) p.

(** [Component2] is mounted with props that satisfy [F] in the current
    store. *)
Definition churning {P2} (F : heap -> P2 -> Prop) (a : Root.app P2) : Prop :=
  exists p out, Root.child2 (fst a) = Some (p, out) /\ F (store (snd a)) p.

(** [Plain]: the props carry the current surname. *)
Definition built_plain (s : string) (hk : Root.hooks) (p : SurnameProps.Props) : Prop :=
  SurnameProps.surname p = s.

(** [MemoData]: the props carry the current surname, and [data] is the
    reference the [useMemo] slot caches for that surname. *)
Definition built_memo_data (s : string) (hk : Root.hooks) (p : DataProps.Props) : Prop :=
  DataProps.surname p = s /\
  Root.data_slot hk = Some ([VStr s], DataProps.data p).

(** [Final]: as for [MemoData], and [func] is the reference the
    [useCallback] slot caches. *)
Definition built_final (s : string) (hk : Root.hooks) (p : FuncProps.Props) : Prop :=
  FuncProps.surname p = s /\
  Root.data_slot hk = Some ([VStr s], FuncProps.data p) /\
  Root.func_slot hk = Some ([], FuncProps.func p).

(** [InlineData]: the [data] of the props is an address of the store. *)
Definition fresh_inline_data (h : heap) (p : DataProps.Props) : Prop :=
  DataProps.data p < length h.

(** [InlineFunc]: the [func] of the props is an address of the store. *)
Definition fresh_inline_func (h : heap) (p : FuncProps.Props) : Prop :=
  FuncProps.func p < length h.

(** A mounted leaf holds an output that displays the value of the props
    it holds. *)
Definition faithful1 (fb : fiber NameProps.Props) : Prop :=
  match fb with
  | Some (q, o) => displayed (Some o) = Some (NameProps.name q)
  | None => True
  end.

Definition faithful2 {P2} (surname_of : P2 -> string) (fb : fiber P2) : Prop :=
  match fb with
  | Some (q, o) => displayed (Some o) = Some (surname_of q)
  | None => True
  end.

(** Both leaves are faithful and the screen shows the two state cells. *)
Definition on_screen {P2} (surname_of : P2 -> string) (a : Root.app P2) : Prop :=
  faithful1 (Root.child1 (fst a)) /\ faithful2 surname_of (Root.child2 (fst a)) /\
  displayed (leaf1 (Root.view (fst a))) = Some (Root.name (fst a)) /\
  displayed (leaf2 (Root.view (fst a))) = Some (Root.surname (fst a)).

(** ** The first version of the application *)

(** The application before any optimization: [Component1] and [Component2]
    have the bodies of the one-prop leaves above and are exported as they
    are, without [memo], so [Home] renders both on each of its evaluations. *)
Module Unmemoized.

Record state := {
  name : string;
  surname : string;
  view : element
}.

Definition Home (st : state) : M state :=
  out1 <- NameProps.Div.Component1 {| NameProps.name := name st |} ;;
  out2 <- SurnameProps.Component2 {| SurnameProps.surname := surname st |} ;;
  ret {| name := name st; surname := surname st;
         view := Div (Some "container")
                   [ Label [Text "Name: "];
                     Input (name st) Name;
                     Label [Text "Surname: "];
                     Input (surname st) Surname;
                     out1;
                     out2 ] |}.

Definition setName (v : string) (st : state) : option state :=
  match setState (name st) v with
  | Some v' => Some {| name := v'; surname := surname st; view := view st |}
  | None => None
  end.

Definition setSurname (v : string) (st : state) : option state :=
  match setState (surname st) v with
  | Some v' => Some {| name := name st; surname := v'; view := view st |}
  | None => None
  end.

Definition onChange (f : field) (v : string) : state -> option state :=
  match f with
  | Name => setName v
  | Surname => setSurname v
  end.

Definition app : Type := state * world.

Definition mount : app :=
  Home {| name := EmptyString; surname := EmptyString; view := Fragment [] |}
       (World [] []).

Definition change (f : field) (v : string) (a : app) : app :=
  match onChange f v (fst a) with
  | Some st => Home st (snd a)
  | None => a
  end.

Definition run (evs : list (field * string)) (a : app) : app :=
  fold_left (fun a ev => change (fst ev) (snd ev) a) evs a.

End Unmemoized.

(** ** Histories of change events *)

Definition field_eqb (f g : field) : bool :=
  match f, g with
  | Name, Name | Surname, Surname => true
  | _, _ => false
  end.

(** The text of the input [f] after the events [evs], when it held [cur]
    before them. *)
Fixpoint cell_after (f : field) (cur : string) (evs : list (field * string)) : string :=
  match evs with
  | [] => cur
  | (g, v) :: evs' => cell_after f (if field_eqb f g then v else cur) evs'
  end.

(** The number of events of [evs] that come from the input [f] and change
    its text, when it held [cur] before them. *)
Fixpoint changes (f : field) (cur : string) (evs : list (field * string)) : nat :=
  match evs with
  | [] => 0
  | (g, v) :: evs' =>
      if field_eqb f g
      then (if String.eqb cur v then changes f cur evs' else S (changes f v evs'))
      else changes f cur evs'
  end.

(** The successive new texts of the input [f] under the events [evs], when
    it held [cur] before them. *)
Fixpoint history (f : field) (cur : string) (evs : list (field * string)) : list string :=
  match evs with
  | [] => []
  | (g, v) :: evs' =>
      if field_eqb f g
      then (if String.eqb cur v then history f cur evs' else v :: history f v evs')
      else history f cur evs'
  end.

(** The objects logged under the tag [t], oldest first. *)
Definition lines_of (t : string) (w : world) : list object :=
  map logged (filter (fun l => String.eqb (tag l) t) (console w)).

(** ** The screen as a function of the two state cells *)

(** What [Component1] renders for a name. *)
Definition Component1_screen (name : string) : element :=
  Div None [ Label [Text "Component1: "]; P [Text "Name: "; Text name] ].

(** What [Component2] renders for a surname; [data] is the text of the
    third paragraph, which the one-prop variant does not have. *)
Definition Component2_screen (surname : string) (data : option string) : element :=
  Div None
    ([ Label [Text "Component2: "]; P [Text "Surname: "; Text surname] ] ++
     match data with
     | Some d => [ P [Text "Data: "; Text d] ]
     | None => []
     end)%list.

(** What [Home] shows for the two state cells; [data] gives the text that
    [Component2] displays for its [data] prop, if it has one. *)
Definition screen (data : string -> option string) (name surname : string) : element :=
  Div (Some "container")
    [ Label [Text "Name: "];
      Input name Name;
      Label [Text "Surname: "];
      Input surname Surname;
      Component1_screen name;
      Component2_screen surname (data surname) ].

(** The text of [data] in each variant: none, the empty object, and the
    object [{ surname }]. *)
Definition no_data (s : string) : option string := None.
Definition empty_data (s : string) : option string := Some (stringify (JObj [])).
Definition surname_data (s : string) : option string :=
  Some (stringify (JObj [("surname", JStr s)])).

(** The [useMemo] slot of [data], if filled for a surname, caches the
    reference of an object [{ surname }] of that surname. *)
Definition data_cached (hk : Root.hooks) (h : heap) : Prop :=
  forall s d, Root.data_slot hk = Some ([VStr s], d) ->
              lookup h d = Some (CObj [("surname", JStr s)]).

(** A mounted leaf holds the output expected for the props it holds. *)
Definition renders1 (fb : fiber NameProps.Props) : Prop :=
  match fb with
  | Some (q, o) => o = Component1_screen (NameProps.name q)
  | None => True
  end.

Definition renders2 {P2} (surname_of : P2 -> string)
    (data : string -> option string) (fb : fiber P2) : Prop :=
  match fb with
  | Some (q, o) => o = Component2_screen (surname_of q) (data (surname_of q))
  | None => True
  end.

(** The slots satisfy [G] in the current store, both leaves hold their
    expected output and [Home] shows the screen of its two cells. *)
Definition in_shape {P2} (surname_of : P2 -> string) (data : string -> option string)
    (G : Root.hooks -> heap -> Prop) (a : Root.app P2) : Prop :=
  G (Root.slots (fst a)) (store (snd a)) /\
  renders1 (Root.child1 (fst a)) /\
  renders2 surname_of data (Root.child2 (fst a)) /\
  Root.view (fst a) = screen data (Root.name (fst a)) (Root.surname (fst a)).

(** [Component1] is mounted with the current name as its prop. *)
Definition named {P2} (a : Root.app P2) : Prop :=
  exists out, Root.child1 (fst a) =
              Some ({| NameProps.name := Root.name (fst a) |}, out).

(** The references [Component2] currently holds as [data] and [func]. *)
Definition held_data (fb : fiber FuncProps.Props) : option ref :=
  option_map (fun po => FuncProps.data (fst po)) fb.

Definition held_func (fb : fiber FuncProps.Props) : option ref :=
  option_map (fun po => FuncProps.func (fst po)) fb.

(** ** The final code assembled from the fragment-based leaves *)

(** The final [Home] over the variants of [Component1] and [Component2]
    that wrap their output in a fragment. *)
Module FinalFragments.
Definition Home :=
  Root.Home NameProps.Frag.Component1 FuncProps.Frag.Component2 Root.Final.props2.
Definition mount :=
  Root.mount NameProps.Frag.Component1 FuncProps.Frag.Component2 Root.Final.props2.
Definition change :=
  Root.change NameProps.Frag.Component1 FuncProps.Frag.Component2 Root.Final.props2.
Definition run :=
  Root.run NameProps.Frag.Component1 FuncProps.Frag.Component2 Root.Final.props2.
End FinalFragments.

(** The output of a leaf with its wrapper replaced by a fragment. *)
Definition as_fragment (e : element) : element := Fragment (content e).

(** What [Home] shows, with [T] applied to the outputs of its two leaves. *)
Definition map_leaves (T : element -> element) (e : element) : element :=
  match e with
  | Div cn [a; b; c; d; o1; o2] => Div cn [a; b; c; d; T o1; T o2]
  | _ => e
  end.

Definition map_fiber {P} (T : element -> element) (fb : fiber P) : fiber P :=
  option_map (fun po => (fst po, T (snd po))) fb.

(** The state of [Home] with [T] applied to every output of a leaf that it
    holds or shows; the cells and the hook slots are as they were. *)
Definition map_state {P2} (T : element -> element) (st : Root.state P2) : Root.state P2 :=
  {| Root.name := Root.name st; Root.surname := Root.surname st;
     Root.slots := Root.slots st;
     Root.child1 := map_fiber T (Root.child1 st);
     Root.child2 := map_fiber T (Root.child2 st);
     Root.view := map_leaves T (Root.view st) |}.

Definition map_shown {P2} (T : element -> element) (a : Root.app P2) : Root.app P2 :=
  (map_state T (fst a), snd a).

(** * Properties *)

(** ** What a render of a leaf does *)

Lemma renders_logged t t' o w :
  Root.renders t (logged_world w t' o) =
  Root.renders t w + (if String.eqb t' t then 1 else 0).
Proof.
  unfold Root.renders, logged_world; simpl.
  rewrite filter_app, length_app; simpl.
  destruct (String.eqb t' t); reflexivity.
Qed.

Lemma renders_same_console t w w' :
  console w' = console w -> Root.renders t w' = Root.renders t w.
Proof. unfold Root.renders; intros ->; reflexivity. Qed.

(** ** A memoized leaf under a sequence of prop updates *)

Section MemoTheory.

Context {P : Type} `{PropSet P} (C : P -> M element) `{!Leaf C}.

Hypothesis shallow_refl : forall p : P,
  shallowEqual (props_object p) (props_object p) = true.

Hypothesis view_stable : forall h l (p q : P),
  shallowEqual (props_object p) (props_object q) = true ->
  in_store h (props_object p) = true ->
  in_store h (props_object q) = true /\ leaf_view (h ++ l)%list q = leaf_view h p.

Lemma memo_run (fb : fiber P) (p : P) (w : world) :
  memo C fb p w =
  match fb with
  | Some (prev, out) =>
      if shallowEqual (props_object prev) (props_object p)
      then (Some (p, out), out, w)
      else (Some (p, leaf_view (store w) p), leaf_view (store w) p,
            logged_world w leaf_tag (props_object p))
  | None => (Some (p, leaf_view (store w) p), leaf_view (store w) p,
             logged_world w leaf_tag (props_object p))
  end.
Proof.
  unfold memo. destruct fb as [[prev out]|].
  - destruct (shallowEqual _ _); [reflexivity|].
    unfold bind. rewrite leaf_run. reflexivity.
  - unfold bind. rewrite leaf_run. reflexivity.
Qed.

Lemma memo_ok fb p w :
  fiber_ok C fb w ->
  in_store (store w) (props_object p) = true ->
  exists out, fst (fst (memo C fb p w)) = Some (p, out) /\
              fiber_ok C (Some (p, out)) (snd (memo C fb p w)).
Proof.
  intros Hok Hp. rewrite memo_run.
  destruct fb as [[prev out]|].
  - destruct (shallowEqual _ _) eqn:E.
    + exists out; simpl; split; [reflexivity|]. split; [exact Hp|].
      destruct Hok as [Hprev ->].
      destruct (view_stable (store w) [] prev p E Hprev) as [_ Hv].
      rewrite app_nil_r in Hv. symmetry; exact Hv.
    + eexists; simpl; split; [reflexivity|]. split; [exact Hp|reflexivity].
  - eexists; simpl; split; [reflexivity|]. split; [exact Hp|reflexivity].
Qed.

Lemma allocs_ok fb cs w :
  fiber_ok C fb w -> fiber_ok C fb (snd (allocs cs w)).
Proof.
  destruct fb as [[p out]|]; simpl; [|trivial].
  intros [Hp ->].
  destruct (view_stable (store w) cs p p (shallow_refl p) Hp) as [_ Hv].
  split; [|symmetry; exact Hv].
  unfold in_store in *. rewrite forallb_forall in *.
  intros kv Hin. specialize (Hp kv Hin).
  destruct (snd kv); [reflexivity|].
  apply Nat.ltb_lt in Hp. apply Nat.ltb_lt. rewrite length_app. lia.
Qed.

Lemma supply_cons cs p us fb w :
  supply C fb ((cs, p) :: us) w =
  supply C (fst (fst (memo C fb p (snd (allocs cs w))))) us
           (snd (memo C fb p (snd (allocs cs w)))).
Proof.
  simpl. unfold bind. simpl.
  destruct (memo C fb p _) as [[fb' o] w2]. reflexivity.
Qed.

Lemma memo_store fb p w : store (snd (memo C fb p w)) = store w.
Proof.
  rewrite memo_run.
  destruct fb as [[prev o]|]; [destruct (shallowEqual _ _)|]; reflexivity.
Qed.

Lemma supply_ok us : forall fb w,
  fiber_ok C fb w ->
  well_formed (store w) us = true ->
  fiber_ok C (fst (supply C fb us w)) (snd (supply C fb us w)).
Proof.
  induction us as [|[cs p] us IH]; intros fb w Hok Hwf.
  - exact Hok.
  - simpl in Hwf. apply andb_prop in Hwf as [Hp Hwf].
    rewrite supply_cons.
    pose proof (allocs_ok fb cs w Hok) as Hok'.
    destruct (memo_ok fb p _ Hok' Hp) as [out [Hfb Hok2]].
    rewrite Hfb. apply IH; [exact Hok2|].
    rewrite memo_store. exact Hwf.
Qed.

Lemma supply_app us vs : forall fb w,
  supply C fb (us ++ vs)%list w =
  supply C (fst (supply C fb us w)) vs (snd (supply C fb us w)).
Proof.
  induction us as [|[cs p] us IH]; intros fb w; [reflexivity|].
  rewrite <- app_comm_cons, !supply_cons. apply IH.
Qed.

Lemma supply_fiber us cs p fb w :
  exists out, fst (supply C fb (us ++ [(cs, p)])%list w) = Some (p, out).
Proof.
  rewrite supply_app, supply_cons. simpl. rewrite memo_run.
  destruct (fst (supply C fb us w)) as [[prev o]|];
    [destruct (shallowEqual _ _)|]; eexists; reflexivity.
Qed.

(** After any well-formed sequence of updates the leaf shows exactly what
    a render of its current props returns. *)
Lemma supply_fresh us cs p w :
  well_formed (store w) (us ++ [(cs, p)])%list = true ->
  shown (fst (supply C None (us ++ [(cs, p)])%list w)) =
  Some (fst (C p (snd (supply C None (us ++ [(cs, p)])%list w)))).
Proof.
  intros Hwf.
  pose proof (supply_ok _ None w I Hwf) as Hok.
  destruct (supply_fiber us cs p None w) as [out Hfb].
  rewrite Hfb in *. destruct Hok as [_ ->].
  rewrite leaf_run. reflexivity.
Qed.

End MemoTheory.

(** ** Shallow comparison of the four props interfaces *)

Lemma shallowEqual_name (p q : NameProps.Props) :
  shallowEqual (props_object p) (props_object q) =
  String.eqb (NameProps.name p) (NameProps.name q).
Proof. cbn. destruct (String.eqb _ _); reflexivity. Qed.

Lemma shallowEqual_surname (p q : SurnameProps.Props) :
  shallowEqual (props_object p) (props_object q) =
  String.eqb (SurnameProps.surname p) (SurnameProps.surname q).
Proof. cbn. destruct (String.eqb _ _); reflexivity. Qed.

Lemma shallowEqual_data (p q : DataProps.Props) :
  shallowEqual (props_object p) (props_object q) =
  String.eqb (DataProps.surname p) (DataProps.surname q) &&
  Nat.eqb (DataProps.data p) (DataProps.data q).
Proof.
  cbn. destruct (String.eqb _ _); [|reflexivity].
  destruct (Nat.eqb _ _); reflexivity.
Qed.

Lemma shallowEqual_func (p q : FuncProps.Props) :
  shallowEqual (props_object p) (props_object q) =
  String.eqb (FuncProps.surname p) (FuncProps.surname q) &&
  Nat.eqb (FuncProps.data p) (FuncProps.data q) &&
  Nat.eqb (FuncProps.func p) (FuncProps.func q).
Proof.
  cbn. destruct (String.eqb _ _); [|reflexivity].
  destruct (Nat.eqb (FuncProps.data p) _); [|reflexivity].
  destruct (Nat.eqb _ _); reflexivity.
Qed.

Lemma lookup_grow h l r :
  Nat.ltb r (length h) = true -> lookup (h ++ l)%list r = lookup h r.
Proof.
  intros Hr. apply Nat.ltb_lt in Hr. unfold lookup.
  apply nth_error_app1; exact Hr.
Qed.

Lemma stable_name h l (p q : NameProps.Props) :
  shallowEqual (props_object p) (props_object q) = true ->
  in_store h (props_object p) = true ->
  in_store h (props_object q) = true /\
  leaf_view (C := NameProps.Div.Component1) (h ++ l)%list q =
  leaf_view (C := NameProps.Div.Component1) h p.
Proof.
  rewrite shallowEqual_name. intros E%String.eqb_eq _.
  destruct p, q; simpl in *; subst. split; reflexivity.
Qed.

Lemma stable_name_frag h l (p q : NameProps.Props) :
  shallowEqual (props_object p) (props_object q) = true ->
  in_store h (props_object p) = true ->
  in_store h (props_object q) = true /\
  leaf_view (C := NameProps.Frag.Component1) (h ++ l)%list q =
  leaf_view (C := NameProps.Frag.Component1) h p.
Proof.
  rewrite shallowEqual_name. intros E%String.eqb_eq _.
  destruct p, q; simpl in *; subst. split; reflexivity.
Qed.

Lemma stable_surname h l (p q : SurnameProps.Props) :
  shallowEqual (props_object p) (props_object q) = true ->
  in_store h (props_object p) = true ->
  in_store h (props_object q) = true /\
  leaf_view (C := SurnameProps.Component2) (h ++ l)%list q =
  leaf_view (C := SurnameProps.Component2) h p.
Proof.
  rewrite shallowEqual_surname. intros E%String.eqb_eq _.
  destruct p, q; simpl in *; subst. split; reflexivity.
Qed.

Lemma stable_data h l (p q : DataProps.Props) :
  shallowEqual (props_object p) (props_object q) = true ->
  in_store h (props_object p) = true ->
  in_store h (props_object q) = true /\
  leaf_view (C := DataProps.Component2) (h ++ l)%list q =
  leaf_view (C := DataProps.Component2) h p.
Proof.
  rewrite shallowEqual_data.
  intros [E1%String.eqb_eq E2%Nat.eqb_eq]%andb_prop Hin.
  destruct p as [s d], q as [s' d']; simpl in *; subst.
  split; [exact Hin|].
  rewrite andb_true_r in Hin.
  unfold JSON_stringify, bind, console_log, ret; simpl.
  rewrite lookup_grow by exact Hin. reflexivity.
Qed.

Lemma stable_func_div h l (p q : FuncProps.Props) :
  shallowEqual (props_object p) (props_object q) = true ->
  in_store h (props_object p) = true ->
  in_store h (props_object q) = true /\
  leaf_view (C := FuncProps.Div.Component2) (h ++ l)%list q =
  leaf_view (C := FuncProps.Div.Component2) h p.
Proof.
  rewrite shallowEqual_func.
  intros [[E1%String.eqb_eq E2%Nat.eqb_eq]%andb_prop E3%Nat.eqb_eq]%andb_prop Hin.
  destruct p as [s d f], q as [s' d' f']; simpl in *; subst.
  split; [exact Hin|].
  apply andb_prop in Hin as [Hd _].
  unfold JSON_stringify, bind, console_log, ret; simpl.
  rewrite lookup_grow by exact Hd. reflexivity.
Qed.

Lemma stable_func_frag h l (p q : FuncProps.Props) :
  shallowEqual (props_object p) (props_object q) = true ->
  in_store h (props_object p) = true ->
  in_store h (props_object q) = true /\
  leaf_view (C := FuncProps.Frag.Component2) (h ++ l)%list q =
  leaf_view (C := FuncProps.Frag.Component2) h p.
Proof.
  rewrite shallowEqual_func.
  intros [[E1%String.eqb_eq E2%Nat.eqb_eq]%andb_prop E3%Nat.eqb_eq]%andb_prop Hin.
  destruct p as [s d f], q as [s' d' f']; simpl in *; subst.
  split; [exact Hin|].
  apply andb_prop in Hin as [Hd _].
  unfold JSON_stringify, bind, console_log, ret; simpl.
  rewrite lookup_grow by exact Hd. reflexivity.
Qed.

Lemma refl_name (p : NameProps.Props) :
  shallowEqual (props_object p) (props_object p) = true.
Proof. rewrite shallowEqual_name. apply String.eqb_refl. Qed.

Lemma refl_surname (p : SurnameProps.Props) :
  shallowEqual (props_object p) (props_object p) = true.
Proof. rewrite shallowEqual_surname. apply String.eqb_refl. Qed.

Lemma refl_data (p : DataProps.Props) :
  shallowEqual (props_object p) (props_object p) = true.
Proof. rewrite shallowEqual_data, String.eqb_refl, Nat.eqb_refl. reflexivity. Qed.

Lemma refl_func (p : FuncProps.Props) :
  shallowEqual (props_object p) (props_object p) = true.
Proof.
  rewrite shallowEqual_func, String.eqb_refl, !Nat.eqb_refl. reflexivity.
Qed.

Lemma well_formed_name h (us : list (list cell * NameProps.Props)) :
  well_formed h us = true.
Proof.
  revert h; induction us as [|[cs p] us IH]; intros h; simpl; [reflexivity|].
  apply IH.
Qed.

Lemma well_formed_surname h (us : list (list cell * SurnameProps.Props)) :
  well_formed h us = true.
Proof.
  revert h; induction us as [|[cs p] us IH]; intros h; simpl; [reflexivity|].
  apply IH.
Qed.

(** ** The memoization guard and what a leaf shows *)

(** C1. A memoized leaf never shows a stale value. The guard of [memo]
    reuses the last output only when the new props are shallowly equal to
    the previous ones, and otherwise returns the render of the new props.
    Hence, for each leaf and after every sequence of prop updates (whose
    references point to objects that exist), the output the leaf shows is
    exactly what a render of its current props returns: the name, surname
    and data text on display are those of the current props. *)
Theorem memo_never_stale :
  (forall P (HP : PropSet P) (C : P -> M element) q out p w,
     memo C (Some (q, out)) p w =
     if shallowEqual (props_object q) (props_object p)
     then (Some (p, out), out, w)
     else (Some (p, fst (C p w)), fst (C p w), snd (C p w)))
  /\ (forall us cs p w, shows_current NameProps.Div.Component1 us cs p w)
  /\ (forall us cs p w, shows_current NameProps.Frag.Component1 us cs p w)
  /\ (forall us cs p w, shows_current SurnameProps.Component2 us cs p w)
  /\ (forall us cs p w,
        well_formed (store w) (us ++ [(cs, p)])%list = true ->
        shows_current DataProps.Component2 us cs p w)
  /\ (forall us cs p w,
        well_formed (store w) (us ++ [(cs, p)])%list = true ->
        shows_current FuncProps.Div.Component2 us cs p w)
  /\ (forall us cs p w,
        well_formed (store w) (us ++ [(cs, p)])%list = true ->
        shows_current FuncProps.Frag.Component2 us cs p w).
Proof.
  split; [|repeat split]; unfold shows_current.
  - intros. unfold memo, bind.
    destruct (shallowEqual _ _); [reflexivity|].
    destruct (C p w); reflexivity.
  - intros. apply (supply_fresh _ refl_name stable_name), well_formed_name.
  - intros. apply (supply_fresh _ refl_name stable_name_frag), well_formed_name.
  - intros. apply (supply_fresh _ refl_surname stable_surname), well_formed_surname.
  - intros. apply (supply_fresh _ refl_data stable_data); assumption.
  - intros. apply (supply_fresh _ refl_func stable_func_div); assumption.
  - intros. apply (supply_fresh _ refl_func stable_func_frag); assumption.
Qed.

(** The three-prop leaf shown [surname = "D"] with a first object, then
    [surname = "Do"] with a second one. *)
Lemma memo_never_stale_witness :
  shows_current DataProps.Component2
    [([CObj [("surname", JStr "D")]], {| DataProps.surname := "D"; DataProps.data := 0 |})]
    [CObj [("surname", JStr "Do")]]
    {| DataProps.surname := "Do"; DataProps.data := 1 |}
    (World [] [])
  /\ shows_current FuncProps.Div.Component2
    [([CObj [("surname", JStr "D")]; CFun],
      {| FuncProps.surname := "D"; FuncProps.data := 0; FuncProps.func := 1 |})]
    [CObj [("surname", JStr "Do")]]
    {| FuncProps.surname := "Do"; FuncProps.data := 2; FuncProps.func := 1 |}
    (World [] [])
  /\ shows_current FuncProps.Frag.Component2
    [([CObj [("surname", JStr "D")]; CFun],
      {| FuncProps.surname := "D"; FuncProps.data := 0; FuncProps.func := 1 |})]
    [CObj [("surname", JStr "Do")]]
    {| FuncProps.surname := "Do"; FuncProps.data := 2; FuncProps.func := 1 |}
    (World [] []).
Proof.
  destruct memo_never_stale as (_ & _ & _ & _ & Hd & Hv & Hf).
  split; [|split].
  - apply Hd. reflexivity.
  - apply Hv. reflexivity.
  - apply Hf. reflexivity.
Defined.

Section Twice.

Context {P : Type} `{PropSet P} (C : P -> M element) `{!Leaf C}.

Hypothesis shallow_refl : forall p : P,
  shallowEqual (props_object p) (props_object p) = true.

Lemma allocs_nil w : snd (allocs [] w) = w.
Proof. destruct w; simpl. rewrite app_nil_r. reflexivity. Qed.

Lemma supply_once fb p w :
  supply C fb [([], p)] w =
  (fst (fst (memo C fb p w)), snd (memo C fb p w)).
Proof. rewrite (supply_cons C), allocs_nil. reflexivity. Qed.

(** Whatever the leaf held before, the second of two successive supplies
    of the same props changes neither the world nor the output. *)
Lemma second_skipped fb p w :
  supply C fb [([], p); ([], p)] w = supply C fb [([], p)] w.
Proof.
  rewrite (supply_cons C), supply_once, allocs_nil, supply_once.
  rewrite !(memo_run C).
  destruct fb as [[prev o]|]; [destruct (shallowEqual _ _) eqn:E|];
    simpl; rewrite ?E, shallow_refl; reflexivity.
Qed.

Lemma mount_twice p w :
  Root.renders leaf_tag (snd (supply C None [([], p); ([], p)] w)) =
  Root.renders leaf_tag w + 1.
Proof.
  rewrite second_skipped, supply_once, (memo_run C). simpl.
  rewrite renders_logged, String.eqb_refl. reflexivity.
Qed.

End Twice.

(** C6. The guard is idempotent. A leaf mounted with the props [p] and
    then supplied the same [p] again (the same strings, the same
    references) runs its render function exactly once; and whatever a
    mounted leaf held before, the second of two successive supplies of the
    same [p] is skipped: it leaves the console, the store and the output as
    the first left them. *)
Theorem same_props_twice_one_render :
  (forall p w,
     Root.renders "Component1 :: render"
       (snd (supply NameProps.Div.Component1 None [([], p); ([], p)] w)) =
     Root.renders "Component1 :: render" w + 1)
  /\ (forall fb p w,
     supply NameProps.Div.Component1 fb [([], p); ([], p)] w =
     supply NameProps.Div.Component1 fb [([], p)] w)
  /\ (forall p w,
     Root.renders "Component2 :: render"
       (snd (supply SurnameProps.Component2 None [([], p); ([], p)] w)) =
     Root.renders "Component2 :: render" w + 1)
  /\ (forall fb p w,
     supply SurnameProps.Component2 fb [([], p); ([], p)] w =
     supply SurnameProps.Component2 fb [([], p)] w)
  /\ (forall p w,
     Root.renders "Component2 :: render"
       (snd (supply FuncProps.Frag.Component2 None [([], p); ([], p)] w)) =
     Root.renders "Component2 :: render" w + 1)
  /\ (forall fb p w,
     supply FuncProps.Frag.Component2 fb [([], p); ([], p)] w =
     supply FuncProps.Frag.Component2 fb [([], p)] w)
  /\ (forall p w,
     Root.renders "Component2 :: render"
       (snd (supply FuncProps.Div.Component2 None [([], p); ([], p)] w)) =
     Root.renders "Component2 :: render" w + 1)
  /\ (forall fb p w,
     supply FuncProps.Div.Component2 fb [([], p); ([], p)] w =
     supply FuncProps.Div.Component2 fb [([], p)] w).
Proof.
  repeat split; intros.
  - exact (mount_twice NameProps.Div.Component1 refl_name p w).
  - exact (second_skipped NameProps.Div.Component1 refl_name fb p w).
  - exact (mount_twice SurnameProps.Component2 refl_surname p w).
  - exact (second_skipped SurnameProps.Component2 refl_surname fb p w).
  - exact (mount_twice FuncProps.Frag.Component2 refl_func p w).
  - exact (second_skipped FuncProps.Frag.Component2 refl_func fb p w).
  - exact (mount_twice FuncProps.Div.Component2 refl_func p w).
  - exact (second_skipped FuncProps.Div.Component2 refl_func fb p w).
Qed.

(** ** The three-prop [Component2] and its callback *)

(** C9. The rendered output of the three-prop [Component2] does not depend
    on [func]: with the same [surname] and [data], any two callbacks give
    the same output, in the variant with a [div] and in the one with a
    fragment. The render does nothing with [func] but log its reference:
    the store is untouched and the console gains the one line that records
    the three props. The comparison of [memo] does look at it: with
    [surname] and [data] equal, the props are shallowly equal exactly when
    the two callbacks are the same reference. *)
Theorem Component2_ignores_func :
  forall (s : string) (d f1 f2 : ref) (w : world),
    let p1 := {| FuncProps.surname := s; FuncProps.data := d; FuncProps.func := f1 |} in
    let p2 := {| FuncProps.surname := s; FuncProps.data := d; FuncProps.func := f2 |} in
    fst (FuncProps.Div.Component2 p1 w) = fst (FuncProps.Div.Component2 p2 w)
    /\ fst (FuncProps.Frag.Component2 p1 w) = fst (FuncProps.Frag.Component2 p2 w)
    /\ snd (FuncProps.Div.Component2 p1 w) =
       World (store w)
         (console w ++ [Logline "Component2 :: render"
            [("surname", VStr s); ("data", VRef d); ("func", VRef f1)]])%list
    /\ snd (FuncProps.Frag.Component2 p1 w) =
       World (store w)
         (console w ++ [Logline "Component2 :: render"
            [("surname", VStr s); ("data", VRef d); ("func", VRef f1)]])%list
    /\ shallowEqual (props_object p1) (props_object p2) = Nat.eqb f1 f2.
Proof.
  intros s d f1 f2 w p1 p2. repeat split.
  subst p1 p2. rewrite shallowEqual_func. simpl.
  rewrite String.eqb_refl, Nat.eqb_refl. reflexivity.
Qed.

(** ** The paired variants of a leaf *)

(** C10. The variant of a leaf that wraps its output in a [div] and the
    one that wraps it in a fragment render the same children and log the
    same line. For [Component1]: the label ["Component1: "] and the
    paragraph ["Name: "] followed by [name]. For the three-prop
    [Component2]: the label ["Component2: "], the paragraph ["Surname: "]
    followed by [surname], and the paragraph ["Data: "] followed by
    [JSON.stringify(data)]. Only the wrapper differs. *)
Theorem div_and_fragment_variants_agree :
  (forall (p : NameProps.Props) (w : world),
     fst (NameProps.Div.Component1 p w) =
       Div None (content (fst (NameProps.Frag.Component1 p w)))
     /\ fst (NameProps.Frag.Component1 p w) =
       Fragment [ Label [Text "Component1: "];
                  P [Text "Name: "; Text (NameProps.name p)] ]
     /\ textContent (fst (NameProps.Div.Component1 p w)) =
        textContent (fst (NameProps.Frag.Component1 p w))
     /\ snd (NameProps.Div.Component1 p w) = snd (NameProps.Frag.Component1 p w))
  /\
  (forall (p : FuncProps.Props) (w : world),
     fst (FuncProps.Div.Component2 p w) =
       Div None (content (fst (FuncProps.Frag.Component2 p w)))
     /\ fst (FuncProps.Frag.Component2 p w) =
       Fragment [ Label [Text "Component2: "];
                  P [Text "Surname: "; Text (FuncProps.surname p)];
                  P [Text "Data: "; expr (fst (JSON_stringify (FuncProps.data p) w))] ]
     /\ textContent (fst (FuncProps.Div.Component2 p w)) =
        textContent (fst (FuncProps.Frag.Component2 p w))
     /\ snd (FuncProps.Div.Component2 p w) = snd (FuncProps.Frag.Component2 p w)).
Proof. split; intros p w; repeat split. Qed.

(** ** The root unit: what an evaluation of [Home] does *)

Section RootTheory.

Context {P2 : Type} `{PropSet P2}.
Variable C1 : NameProps.Props -> M element.
Variable C2 : P2 -> M element.
Variable props2 : string -> Root.hooks -> M (P2 * Root.hooks).
Context `{!Leaf C1} `{!Leaf C2}.

Hypothesis tag1 : leaf_tag (C := C1) = "Component1 :: render".
Hypothesis tag2 : leaf_tag (C := C2) = "Component2 :: render".
Hypothesis props2_console : forall s hk w,
  console (snd (props2 s hk w)) = console w.

Notation Home := (Root.Home C1 C2 props2).
Notation change := (Root.change C1 C2 props2).
Notation run := (Root.run C1 C2 props2).
Notation mount := (Root.mount C1 C2 props2).
Notation count2 := (Root.renders "Component2 :: render").

Lemma Home_eq st w :
  Home st w =
  let r := props2 (Root.surname st) (Root.slots st) w in
  let m1 := memo C1 (Root.child1 st) {| NameProps.name := Root.name st |} (snd r) in
  let m2 := memo C2 (Root.child2 st) (fst (fst r)) (snd m1) in
  ({| Root.name := Root.name st; Root.surname := Root.surname st;
      Root.slots := snd (fst r);
      Root.child1 := fst (fst m1); Root.child2 := fst (fst m2);
      Root.view := Div (Some "container")
                     [ Label [Text "Name: "];
                       Input (Root.name st) Name;
                       Label [Text "Surname: "];
                       Input (Root.surname st) Surname;
                       snd (fst m1);
                       snd (fst m2) ] |},
   snd m2).
Proof.
  unfold Root.Home, bind.
  destruct (props2 _ _ w) as [[p2 hk] w1]. simpl.
  destruct (memo C1 _ _ w1) as [[c1 o1] w2]. simpl.
  destruct (memo C2 _ _ w2) as [[c2 o2] w3]. reflexivity.
Qed.

Lemma Home_cells st w :
  Root.name (fst (Home st w)) = Root.name st /\
  Root.surname (fst (Home st w)) = Root.surname st.
Proof. rewrite Home_eq. split; reflexivity. Qed.

Lemma setState_eq (cur v : string) :
  setState cur v = if String.eqb cur v then None else Some v.
Proof. reflexivity. Qed.

Lemma change_cells f v a :
  Root.name (fst (change f v a)) =
    match f with Name => v | Surname => Root.name (fst a) end /\
  Root.surname (fst (change f v a)) =
    match f with Name => Root.surname (fst a) | Surname => v end.
Proof.
  unfold Root.change, Root.onChange, Root.setName, Root.setSurname.
  destruct f; rewrite setState_eq.
  - destruct (String.eqb _ v) eqn:E.
    + apply String.eqb_eq in E. split; [exact E|reflexivity].
    + rewrite Home_eq. split; reflexivity.
  - destruct (String.eqb _ v) eqn:E.
    + apply String.eqb_eq in E. split; [reflexivity|exact E].
    + rewrite Home_eq. split; reflexivity.
Qed.

Lemma run_app evs evs' a : run (evs ++ evs')%list a = run evs' (run evs a).
Proof. unfold Root.run. apply fold_left_app. Qed.

Lemma run_cons f v evs a : run ((f, v) :: evs) a = run evs (change f v a).
Proof. reflexivity. Qed.

(** The render count of [Component2] over one evaluation of [Home]:
    one more exactly when the guard of the second child does not skip. *)
Lemma Home_count2 st w :
  count2 (snd (Home st w)) =
  count2 w +
  match Root.child2 st with
  | Some (prev, _) =>
      if shallowEqual (props_object prev)
           (props_object (fst (fst (props2 (Root.surname st) (Root.slots st) w))))
      then 0 else 1
  | None => 1
  end.
Proof.
  rewrite Home_eq. cbv zeta. cbn [snd].
  set (r := props2 _ _ w).
  assert (Hr : count2 (snd r) = count2 w)
    by (apply renders_same_console, props2_console).
  assert (H1 : count2 (snd (memo C1 (Root.child1 st)
                 {| NameProps.name := Root.name st |} (snd r))) = count2 w).
  { rewrite (memo_run C1).
    destruct (Root.child1 st) as [[q o]|]; [destruct (shallowEqual _ _)|];
      cbn [snd]; rewrite ?renders_logged, ?tag1; simpl; lia. }
  rewrite (memo_run C2).
  destruct (Root.child2 st) as [[q o]|]; [destruct (shallowEqual _ _)|];
    cbn [snd]; rewrite ?renders_logged, ?tag2, ?String.eqb_refl; lia.
Qed.

Lemma Home_child2 st w :
  exists out, Root.child2 (fst (Home st w)) =
    Some (fst (fst (props2 (Root.surname st) (Root.slots st) w)), out).
Proof.
  rewrite Home_eq. cbv zeta. cbn [fst Root.child2].
  rewrite (memo_run C2).
  destruct (Root.child2 st) as [[q o]|]; [destruct (shallowEqual _ _)|];
    eexists; reflexivity.
Qed.

Lemma Home_slots st w :
  Root.slots (fst (Home st w)) =
  snd (fst (props2 (Root.surname st) (Root.slots st) w)).
Proof. rewrite Home_eq. reflexivity. Qed.

Lemma Home_store st w :
  store (snd (Home st w)) =
  store (snd (props2 (Root.surname st) (Root.slots st) w)).
Proof.
  rewrite Home_eq. cbv zeta. cbn [snd].
  rewrite (memo_store C2), (memo_store C1). reflexivity.
Qed.

Lemma change_eq f v a :
  change f v a =
  if String.eqb (match f with Name => Root.name (fst a)
                            | Surname => Root.surname (fst a) end) v
  then a
  else Home (match f with
             | Name =>
                 {| Root.name := v; Root.surname := Root.surname (fst a);
                    Root.slots := Root.slots (fst a);
                    Root.child1 := Root.child1 (fst a);
                    Root.child2 := Root.child2 (fst a);
                    Root.view := Root.view (fst a) |}
             | Surname =>
                 {| Root.name := Root.name (fst a); Root.surname := v;
                    Root.slots := Root.slots (fst a);
                    Root.child1 := Root.child1 (fst a);
                    Root.child2 := Root.child2 (fst a);
                    Root.view := Root.view (fst a) |}
             end) (snd a).
Proof.
  unfold Root.change, Root.onChange, Root.setName, Root.setSurname.
  destruct f; rewrite setState_eq; destruct (String.eqb _ v); reflexivity.
Qed.

(** *** Props that are stable while [surname] is *)

Section Stable.

(** [J s hk p]: the props [p] are the ones [Home] built for the surname
    [s], leaving the hook slots [hk]. *)
Variable J : string -> Root.hooks -> P2 -> Prop.

Hypothesis J_built : forall s hk w,
  J s (snd (fst (props2 s hk w))) (fst (fst (props2 s hk w))).
Hypothesis J_same : forall s hk p w,
  J s hk p ->
  shallowEqual (props_object p) (props_object (fst (fst (props2 s hk w)))) = true.
Hypothesis J_other : forall s s' hk p w,
  J s hk p -> String.eqb s s' = false ->
  shallowEqual (props_object p) (props_object (fst (fst (props2 s' hk w)))) = false.

Lemma settled_Home st w : settled J (Home st w).
Proof.
  destruct (Home_child2 st w) as [out Hc].
  exists (fst (fst (props2 (Root.surname st) (Root.slots st) w))), out.
  split; [exact Hc|].
  rewrite Home_slots. rewrite (proj2 (Home_cells st w)). apply J_built.
Qed.

Lemma settled_mount : settled J mount.
Proof. apply settled_Home. Qed.

Lemma settled_change f v a : settled J a -> settled J (change f v a).
Proof.
  intros Ha. rewrite change_eq.
  destruct (String.eqb _ v); [exact Ha|apply settled_Home].
Qed.

Lemma settled_run evs : forall a, settled J a -> settled J (run evs a).
Proof.
  induction evs as [|[f v] evs IH]; intros a Ha; [exact Ha|].
  rewrite run_cons. apply IH, settled_change, Ha.
Qed.

Lemma name_change_count2 v a :
  settled J a -> count2 (snd (change Name v a)) = count2 (snd a).
Proof.
  intros (p & out & Hc & Hj). rewrite change_eq.
  destruct (String.eqb _ v); [reflexivity|].
  rewrite Home_count2. cbn [Root.child2 Root.surname Root.slots].
  rewrite Hc, (J_same _ _ _ _ Hj). lia.
Qed.

Lemma name_edits_count2 vs : forall a,
  settled J a -> count2 (snd (run (edits Name vs) a)) = count2 (snd a).
Proof.
  induction vs as [|v vs IH]; intros a Ha; [reflexivity|].
  unfold edits; simpl map. rewrite run_cons.
  fold (edits Name vs). rewrite IH by (apply settled_change, Ha).
  apply name_change_count2, Ha.
Qed.

Lemma surname_change_count2 v a :
  settled J a -> String.eqb (Root.surname (fst a)) v = false ->
  count2 (snd (change Surname v a)) = count2 (snd a) + 1.
Proof.
  intros (p & out & Hc & Hj) Hv. rewrite change_eq, Hv.
  rewrite Home_count2. cbn [Root.child2 Root.surname Root.slots].
  rewrite Hc, (J_other _ _ _ _ _ Hj Hv). reflexivity.
Qed.

Lemma name_edits_surname vs : forall a,
  Root.surname (fst (run (edits Name vs) a)) = Root.surname (fst a).
Proof.
  induction vs as [|v vs IH]; intros a; [reflexivity|].
  unfold edits; simpl map. rewrite run_cons.
  fold (edits Name vs). rewrite IH. apply change_cells.
Qed.

End Stable.

(** *** Props that hold a reference allocated by the render itself *)

Section Fresh.

(** [F h p]: the reference of [p] that [Home] allocates on every render
    is an address of the store [h]. *)
Variable F : heap -> P2 -> Prop.

Hypothesis F_built : forall s hk w,
  F (store (snd (props2 s hk w))) (fst (fst (props2 s hk w))).
Hypothesis F_other : forall s hk p w,
  F (store w) p ->
  shallowEqual (props_object p) (props_object (fst (fst (props2 s hk w)))) = false.

Lemma churning_Home st w : churning F (Home st w).
Proof.
  destruct (Home_child2 st w) as [out Hc].
  exists (fst (fst (props2 (Root.surname st) (Root.slots st) w))), out.
  split; [exact Hc|]. rewrite Home_store. apply F_built.
Qed.

Lemma churning_change f v a : churning F a -> churning F (change f v a).
Proof.
  intros Ha. rewrite change_eq.
  destruct (String.eqb _ v); [exact Ha|apply churning_Home].
Qed.

Lemma churning_run evs : forall a, churning F a -> churning F (run evs a).
Proof.
  induction evs as [|[f v] evs IH]; intros a Ha; [exact Ha|].
  rewrite run_cons. apply IH, churning_change, Ha.
Qed.

Lemma keystroke_count2 v a :
  churning F a -> String.eqb (Root.name (fst a)) v = false ->
  count2 (snd (change Name v a)) = count2 (snd a) + 1.
Proof.
  intros (p & out & Hc & Hf) Hv. rewrite change_eq, Hv.
  rewrite Home_count2. cbn [Root.child2 Root.surname Root.slots].
  rewrite Hc, (F_other _ _ _ _ Hf). reflexivity.
Qed.

Lemma keystrokes_count2 vs : forall a,
  churning F a -> keystrokes (Root.name (fst a)) vs = true ->
  count2 (snd (run (edits Name vs) a)) = count2 (snd a) + length vs.
Proof.
  induction vs as [|v vs IH]; intros a Ha Hk; [simpl; lia|].
  simpl in Hk. apply andb_prop in Hk as [Hv Hk].
  apply negb_true_iff in Hv.
  unfold edits; simpl map. rewrite run_cons. fold (edits Name vs).
  rewrite IH.
  - rewrite (keystroke_count2 v a Ha Hv). simpl. lia.
  - apply churning_change, Ha.
  - rewrite (proj1 (change_cells Name v a)). exact Hk.
Qed.

End Fresh.

End RootTheory.

(** ** The variants of [Home], one by one *)

Lemma hook_inputs_one s deps :
  areHookInputsEqual [VStr s] deps = true -> deps = [VStr s].
Proof.
  destruct deps as [|[t|r] [|b deps]]; simpl; try discriminate.
  - rewrite andb_true_r. intros E%String.eqb_eq. subst; reflexivity.
  - rewrite andb_false_r. discriminate.
Qed.

Lemma hook_inputs_none deps :
  areHookInputsEqual [] deps = true -> deps = [].
Proof. destruct deps; simpl; [reflexivity|discriminate]. Qed.

Lemma hook_inputs_same s : areHookInputsEqual [VStr s] [VStr s] = true.
Proof. simpl. rewrite String.eqb_refl. reflexivity. Qed.

Arguments areHookInputsEqual : simpl never.

Ltac run_hooks :=
  unfold useMemo, useCallback, bind, ret, alloc; simpl;
  repeat match goal with
         | |- context [match ?s with Some _ => _ | None => _ end] =>
             let E := fresh "E" in destruct s as [[? ?]|] eqn:E; simpl
         | |- context [if areHookInputsEqual ?a ?b then _ else _] =>
             let E := fresh "E" in destruct (areHookInputsEqual a b) eqn:E; simpl
         end.

Lemma plain_props2_console s hk w : console (snd (Root.Plain.props2 s hk w)) = console w.
Proof. reflexivity. Qed.

Lemma plain_built s hk w :
  built_plain s (snd (fst (Root.Plain.props2 s hk w)))
    (fst (fst (Root.Plain.props2 s hk w))).
Proof. reflexivity. Qed.

Lemma plain_same s hk p w :
  built_plain s hk p ->
  shallowEqual (props_object p)
    (props_object (fst (fst (Root.Plain.props2 s hk w)))) = true.
Proof.
  unfold built_plain. intros <-. rewrite shallowEqual_surname. apply String.eqb_refl.
Qed.

Lemma plain_other s s' hk p w :
  built_plain s hk p -> String.eqb s s' = false ->
  shallowEqual (props_object p)
    (props_object (fst (fst (Root.Plain.props2 s' hk w)))) = false.
Proof.
  unfold built_plain. intros <- Hs. rewrite shallowEqual_surname. exact Hs.
Qed.

Lemma memo_data_props2_console s hk w :
  console (snd (Root.MemoData.props2 s hk w)) = console w.
Proof. unfold Root.MemoData.props2. run_hooks; reflexivity. Qed.

Lemma memo_data_built s hk w :
  built_memo_data s (snd (fst (Root.MemoData.props2 s hk w)))
    (fst (fst (Root.MemoData.props2 s hk w))).
Proof.
  unfold built_memo_data, Root.MemoData.props2. run_hooks; split; try reflexivity.
  apply hook_inputs_one in E0. subst. reflexivity.
Qed.

Lemma memo_data_same s hk p w :
  built_memo_data s hk p ->
  shallowEqual (props_object p)
    (props_object (fst (fst (Root.MemoData.props2 s hk w)))) = true.
Proof.
  intros [<- Hd]. rewrite shallowEqual_data.
  unfold Root.MemoData.props2, useMemo, bind, ret. rewrite Hd, hook_inputs_same. simpl.
  rewrite String.eqb_refl, Nat.eqb_refl. reflexivity.
Qed.

Lemma memo_data_other s s' hk p w :
  built_memo_data s hk p -> String.eqb s s' = false ->
  shallowEqual (props_object p)
    (props_object (fst (fst (Root.MemoData.props2 s' hk w)))) = false.
Proof.
  intros [<- Hd] Hs. rewrite shallowEqual_data.
  replace (DataProps.surname (fst (fst (Root.MemoData.props2 s' hk w)))) with s'
    by (unfold Root.MemoData.props2; run_hooks; reflexivity).
  rewrite Hs. reflexivity.
Qed.

Lemma final_props2_console s hk w : console (snd (Root.Final.props2 s hk w)) = console w.
Proof. unfold Root.Final.props2. run_hooks; reflexivity. Qed.

Lemma final_built s hk w :
  built_final s (snd (fst (Root.Final.props2 s hk w)))
    (fst (fst (Root.Final.props2 s hk w))).
Proof.
  unfold built_final, Root.Final.props2. run_hooks; repeat split;
    repeat match goal with
           | E : areHookInputsEqual [VStr _] _ = true |- _ =>
               apply hook_inputs_one in E; subst
           | E : areHookInputsEqual [] _ = true |- _ =>
               apply hook_inputs_none in E; subst
           end; reflexivity.
Qed.

Lemma final_same s hk p w :
  built_final s hk p ->
  shallowEqual (props_object p)
    (props_object (fst (fst (Root.Final.props2 s hk w)))) = true.
Proof.
  intros (<- & Hd & Hf). rewrite shallowEqual_func.
  unfold Root.Final.props2, useMemo, useCallback, bind, ret, alloc.
  rewrite Hd, Hf, hook_inputs_same. simpl.
  rewrite String.eqb_refl, !Nat.eqb_refl. reflexivity.
Qed.

Lemma final_other s s' hk p w :
  built_final s hk p -> String.eqb s s' = false ->
  shallowEqual (props_object p)
    (props_object (fst (fst (Root.Final.props2 s' hk w)))) = false.
Proof.
  intros (<- & Hd & Hf) Hs. rewrite shallowEqual_func.
  replace (FuncProps.surname (fst (fst (Root.Final.props2 s' hk w)))) with s'
    by (unfold Root.Final.props2; run_hooks; reflexivity).
  rewrite Hs. reflexivity.
Qed.

Lemma inline_data_props2_console s hk w :
  console (snd (Root.InlineData.props2 s hk w)) = console w.
Proof. reflexivity. Qed.

Lemma inline_data_fresh s hk w :
  fresh_inline_data (store (snd (Root.InlineData.props2 s hk w)))
    (fst (fst (Root.InlineData.props2 s hk w))).
Proof. unfold fresh_inline_data; simpl. rewrite length_app; simpl. lia. Qed.

Lemma inline_data_differs s hk p w :
  fresh_inline_data (store w) p ->
  shallowEqual (props_object p)
    (props_object (fst (fst (Root.InlineData.props2 s hk w)))) = false.
Proof.
  unfold fresh_inline_data. intros Hp. rewrite shallowEqual_data. simpl.
  replace (Nat.eqb (DataProps.data p) (length (store w))) with false
    by (symmetry; apply Nat.eqb_neq; lia).
  apply andb_false_r.
Qed.

Lemma inline_func_props2_console s hk w :
  console (snd (Root.InlineFunc.props2 s hk w)) = console w.
Proof. unfold Root.InlineFunc.props2. run_hooks; reflexivity. Qed.

Lemma inline_func_fresh s hk w :
  fresh_inline_func (store (snd (Root.InlineFunc.props2 s hk w)))
    (fst (fst (Root.InlineFunc.props2 s hk w))).
Proof.
  unfold fresh_inline_func, Root.InlineFunc.props2. run_hooks; rewrite ?length_app; simpl; lia.
Qed.

Lemma inline_func_func_above s hk w :
  length (store w) <= FuncProps.func (fst (fst (Root.InlineFunc.props2 s hk w))).
Proof.
  unfold Root.InlineFunc.props2. run_hooks; rewrite ?length_app; simpl; lia.
Qed.

Lemma inline_func_differs s hk p w :
  fresh_inline_func (store w) p ->
  shallowEqual (props_object p)
    (props_object (fst (fst (Root.InlineFunc.props2 s hk w)))) = false.
Proof.
  unfold fresh_inline_func. intros Hp. rewrite shallowEqual_func.
  pose proof (inline_func_func_above s hk w) as Hf.
  replace (Nat.eqb (FuncProps.func p) _) with false
    by (symmetry; apply Nat.eqb_neq; lia).
  apply andb_false_r.
Qed.

(** ** Render counts of [Component2] *)

(** The console after mount, one keystroke in the name input and one in
    the surname input: the final code renders [Component2] for the surname
    only, the variant with an inline callback for both. *)
Example final_console :
  map tag (console (snd (Root.Final.run [(Name, "J"); (Surname, "D")] Root.Final.mount))) =
  [ "Component1 :: render"; "Component2 :: render";
    "Component1 :: render";
    "Component2 :: render" ].
Proof. reflexivity. Qed.

Example inline_func_console :
  map tag (console (snd (Root.InlineFunc.run [(Name, "J"); (Surname, "D")]
                           Root.InlineFunc.mount))) =
  [ "Component1 :: render"; "Component2 :: render";
    "Component1 :: render"; "Component2 :: render";
    "Component2 :: render" ].
Proof. reflexivity. Qed.

Lemma plain_settled evs :
  settled built_plain (Root.Plain.run evs Root.Plain.mount).
Proof.
  exact (settled_run NameProps.Div.Component1 SurnameProps.Component2 Root.Plain.props2
           built_plain plain_built evs _
           (settled_Home NameProps.Div.Component1 SurnameProps.Component2 Root.Plain.props2
              built_plain plain_built _ _)).
Qed.

Lemma memo_data_settled evs :
  settled built_memo_data (Root.MemoData.run evs Root.MemoData.mount).
Proof.
  exact (settled_run NameProps.Div.Component1 DataProps.Component2 Root.MemoData.props2
           built_memo_data memo_data_built evs _
           (settled_Home NameProps.Div.Component1 DataProps.Component2 Root.MemoData.props2
              built_memo_data memo_data_built _ _)).
Qed.

Lemma final_settled evs :
  settled built_final (Root.Final.run evs Root.Final.mount).
Proof.
  exact (settled_run NameProps.Div.Component1 FuncProps.Div.Component2 Root.Final.props2
           built_final final_built evs _
           (settled_Home NameProps.Div.Component1 FuncProps.Div.Component2 Root.Final.props2
              built_final final_built _ _)).
Qed.

(** C2. Once memoization is applied, editing the name never re-renders
    [Component2]. From every state the application can reach, and for every
    sequence of edits of the name input, the render count of [Component2]
    after the edits is its render count before them. This holds for the
    one-prop [Component2] under [memo], for the two-prop one with [data]
    from [useMemo], and for the three-prop one of the final code, with
    [data] from [useMemo] and [func] from [useCallback]. *)
Theorem name_edits_never_rerender_Component2 :
  forall (evs : list (field * string)) (vs : list string),
    Root.renders "Component2 :: render"
      (snd (Root.Plain.run (edits Name vs) (Root.Plain.run evs Root.Plain.mount))) =
    Root.renders "Component2 :: render" (snd (Root.Plain.run evs Root.Plain.mount))
    /\
    Root.renders "Component2 :: render"
      (snd (Root.MemoData.run (edits Name vs)
              (Root.MemoData.run evs Root.MemoData.mount))) =
    Root.renders "Component2 :: render"
      (snd (Root.MemoData.run evs Root.MemoData.mount))
    /\
    Root.renders "Component2 :: render"
      (snd (Root.Final.run (edits Name vs) (Root.Final.run evs Root.Final.mount))) =
    Root.renders "Component2 :: render" (snd (Root.Final.run evs Root.Final.mount)).
Proof.
  intros evs vs. split; [|split].
  - exact (name_edits_count2 NameProps.Div.Component1 SurnameProps.Component2
             Root.Plain.props2 eq_refl eq_refl
             plain_props2_console built_plain
             plain_built plain_same
             vs _ (plain_settled evs)).
  - exact (name_edits_count2 NameProps.Div.Component1 DataProps.Component2
             Root.MemoData.props2 eq_refl eq_refl
             memo_data_props2_console built_memo_data
             memo_data_built memo_data_same
             vs _ (memo_data_settled evs)).
  - exact (name_edits_count2 NameProps.Div.Component1 FuncProps.Div.Component2
             Root.Final.props2 eq_refl eq_refl
             final_props2_console built_final
             final_built final_same
             vs _ (final_settled evs)).
Qed.

Lemma final_name_edits evs vs :
  Root.renders "Component2 :: render"
    (snd (Root.Final.run (evs ++ edits Name vs) Root.Final.mount)) =
  Root.renders "Component2 :: render" (snd (Root.Final.run evs Root.Final.mount))
  /\ Root.surname (fst (Root.Final.run (evs ++ edits Name vs) Root.Final.mount)) =
     Root.surname (fst (Root.Final.run evs Root.Final.mount)).
Proof.
  unfold Root.Final.run. rewrite run_app. split.
  - exact (name_edits_count2 NameProps.Div.Component1 FuncProps.Div.Component2
             Root.Final.props2 eq_refl eq_refl
             final_props2_console built_final
             final_built final_same
             vs _ (final_settled evs)).
  - apply name_edits_surname.
Qed.

Lemma final_surname_edit evs v :
  String.eqb (Root.surname (fst (Root.Final.run evs Root.Final.mount))) v = false ->
  Root.renders "Component2 :: render"
    (snd (Root.Final.run (evs ++ [(Surname, v)]) Root.Final.mount)) =
  Root.renders "Component2 :: render" (snd (Root.Final.run evs Root.Final.mount)) + 1
  /\ Root.surname (fst (Root.Final.run (evs ++ [(Surname, v)]) Root.Final.mount)) = v.
Proof.
  intros Hv. unfold Root.Final.run. rewrite run_app, run_cons. split.
  - exact (surname_change_count2 NameProps.Div.Component1 FuncProps.Div.Component2
             Root.Final.props2 eq_refl eq_refl
             final_props2_console built_final
             final_other v _ (final_settled evs) Hv).
  - apply change_cells.
Qed.

(** C3. In the final code ([data] from [useMemo] on [surname], [func] from
    [useCallback] with no dependency), typing the surname ["Doe"] one
    character at a time, so that the input holds ["D"], ["Do"] and then
    ["Doe"], runs the render function of [Component2] exactly three times
    after the render of the mount: once per surname value, however many
    edits of the name, each one an evaluation of [Home], come before,
    between and after the three keystrokes. *)
Theorem typing_Doe_renders_Component2_three_times :
  forall ns0 ns1 ns2 ns3 : list string,
    Root.renders "Component2 :: render"
      (snd (Root.Final.run
              (edits Name ns0 ++ [(Surname, "D")] ++
               edits Name ns1 ++ [(Surname, "Do")] ++
               edits Name ns2 ++ [(Surname, "Doe")] ++
               edits Name ns3)%list
              Root.Final.mount)) =
    Root.renders "Component2 :: render" (snd Root.Final.mount) + 3
    /\ Root.renders "Component2 :: render" (snd Root.Final.mount) = 1.
Proof.
  intros ns0 ns1 ns2 ns3. split; [|reflexivity].
  rewrite !app_assoc.
  destruct (final_name_edits [] ns0) as [C0 S0]. simpl app in C0, S0.
  assert (E0 : Root.surname (fst (Root.Final.run (edits Name ns0) Root.Final.mount)) = EmptyString)
    by (rewrite S0; reflexivity).
  destruct (final_surname_edit (edits Name ns0) "D") as [C1 S1];
    [rewrite E0; reflexivity|].
  destruct (final_name_edits (edits Name ns0 ++ [(Surname, "D")])%list ns1) as [C2 S2].
  rewrite S1 in S2.
  destruct (final_surname_edit _ "Do"
              ltac:(rewrite S2; reflexivity)) as [C3 S3].
  destruct (final_name_edits
              (((edits Name ns0 ++ [(Surname, "D")]) ++ edits Name ns1)
                 ++ [(Surname, "Do")])%list ns2) as [C4 S4].
  rewrite S3 in S4.
  destruct (final_surname_edit _ "Doe"
              ltac:(rewrite S4; reflexivity)) as [C5 S5].
  destruct (final_name_edits
              (((((edits Name ns0 ++ [(Surname, "D")]) ++ edits Name ns1)
                   ++ [(Surname, "Do")]) ++ edits Name ns2)
                 ++ [(Surname, "Doe")])%list ns3) as [C6 _].
  rewrite C6, C5, C4, C3, C2, C1, C0. reflexivity.
Qed.

Lemma inline_data_churning evs :
  churning fresh_inline_data (Root.InlineData.run evs Root.InlineData.mount).
Proof.
  exact (churning_run NameProps.Div.Component1 DataProps.Component2 Root.InlineData.props2
           fresh_inline_data inline_data_fresh evs _
           (churning_Home NameProps.Div.Component1 DataProps.Component2 Root.InlineData.props2
              fresh_inline_data inline_data_fresh _ _)).
Qed.

Lemma inline_func_churning evs :
  churning fresh_inline_func (Root.InlineFunc.run evs Root.InlineFunc.mount).
Proof.
  exact (churning_run NameProps.Div.Component1 FuncProps.Div.Component2 Root.InlineFunc.props2
           fresh_inline_func inline_func_fresh evs _
           (churning_Home NameProps.Div.Component1 FuncProps.Div.Component2 Root.InlineFunc.props2
              fresh_inline_func inline_func_fresh _ _)).
Qed.

(** C4. In the naive variants, where [Home] allocates a structured prop
    anew on every evaluation ([data={{}}], or [func={() => undefined}]),
    each keystroke in the name input re-renders the memoized [Component2]
    exactly once, although [surname] has not changed: from every state the
    application can reach, a run of keystrokes in the name input adds as
    many renders of [Component2] as it has keystrokes. *)
Theorem naive_variants_rerender_on_every_keystroke :
  forall (evs : list (field * string)) (vs : list string),
    (keystrokes (Root.name (fst (Root.InlineData.run evs Root.InlineData.mount))) vs = true ->
     Root.renders "Component2 :: render"
       (snd (Root.InlineData.run (edits Name vs)
               (Root.InlineData.run evs Root.InlineData.mount))) =
     Root.renders "Component2 :: render"
       (snd (Root.InlineData.run evs Root.InlineData.mount)) + length vs)
    /\
    (keystrokes (Root.name (fst (Root.InlineFunc.run evs Root.InlineFunc.mount))) vs = true ->
     Root.renders "Component2 :: render"
       (snd (Root.InlineFunc.run (edits Name vs)
               (Root.InlineFunc.run evs Root.InlineFunc.mount))) =
     Root.renders "Component2 :: render"
       (snd (Root.InlineFunc.run evs Root.InlineFunc.mount)) + length vs).
Proof.
  intros evs vs. split; intros Hk.
  - exact (keystrokes_count2 NameProps.Div.Component1 DataProps.Component2
             Root.InlineData.props2 eq_refl eq_refl
             inline_data_props2_console fresh_inline_data
             inline_data_fresh inline_data_differs
             vs _ (inline_data_churning evs) Hk).
  - exact (keystrokes_count2 NameProps.Div.Component1 FuncProps.Div.Component2
             Root.InlineFunc.props2 eq_refl eq_refl
             inline_func_props2_console fresh_inline_func
             inline_func_fresh inline_func_differs
             vs _ (inline_func_churning evs) Hk).
Qed.

(** With the surname ["Doe"] already entered, typing ["D"] and then ["a"]
    into the name input. *)
Lemma naive_variants_rerender_on_every_keystroke_witness :
  Root.renders "Component2 :: render"
    (snd (Root.InlineData.run (edits Name ["D"; "Da"])
            (Root.InlineData.run [(Surname, "Doe")] Root.InlineData.mount))) =
  Root.renders "Component2 :: render"
    (snd (Root.InlineData.run [(Surname, "Doe")] Root.InlineData.mount)) + 2
  /\
  Root.renders "Component2 :: render"
    (snd (Root.InlineFunc.run (edits Name ["D"; "Da"])
            (Root.InlineFunc.run [(Surname, "Doe")] Root.InlineFunc.mount))) =
  Root.renders "Component2 :: render"
    (snd (Root.InlineFunc.run [(Surname, "Doe")] Root.InlineFunc.mount)) + 2.
Proof.
  split.
  - apply (proj1 (naive_variants_rerender_on_every_keystroke
                    [(Surname, "Doe")] ["D"; "Da"])).
    reflexivity.
  - apply (proj2 (naive_variants_rerender_on_every_keystroke
                    [(Surname, "Doe")] ["D"; "Da"])).
    reflexivity.
Defined.

(** ** What the screen shows *)

Section Screen.

Context {P2 : Type} `{PropSet P2}.
Variable C1 : NameProps.Props -> M element.
Variable C2 : P2 -> M element.
Variable props2 : string -> Root.hooks -> M (P2 * Root.hooks).
Context `{!Leaf C1} `{!Leaf C2}.

(** The surname among the props of [Component2]. *)
Variable surname_of : P2 -> string.

Hypothesis built_surname : forall s hk w,
  surname_of (fst (fst (props2 s hk w))) = s.
Hypothesis equal_surname : forall p q,
  shallowEqual (props_object p) (props_object q) = true ->
  surname_of p = surname_of q.
Hypothesis show1 : forall h p,
  displayed (Some (leaf_view (C := C1) h p)) = Some (NameProps.name p).
Hypothesis show2 : forall h p,
  displayed (Some (leaf_view (C := C2) h p)) = Some (surname_of p).

Notation Home := (Root.Home C1 C2 props2).
Notation change := (Root.change C1 C2 props2).
Notation run := (Root.run C1 C2 props2).
Notation mount := (Root.mount C1 C2 props2).

Lemma memo1_faithful fb p w :
  faithful1 fb ->
  faithful1 (fst (fst (memo C1 fb p w))) /\
  displayed (Some (snd (fst (memo C1 fb p w)))) = Some (NameProps.name p).
Proof.
  intros Hf. rewrite (memo_run C1).
  destruct fb as [[q o]|]; [destruct (shallowEqual _ _) eqn:E|]; simpl;
    try (split; apply show1).
  rewrite shallowEqual_name in E. apply String.eqb_eq in E.
  simpl in Hf. rewrite <- E. split; exact Hf.
Qed.

Lemma memo2_faithful fb p w :
  faithful2 surname_of fb ->
  faithful2 surname_of (fst (fst (memo C2 fb p w))) /\
  displayed (Some (snd (fst (memo C2 fb p w)))) = Some (surname_of p).
Proof.
  intros Hf. rewrite (memo_run C2).
  destruct fb as [[q o]|]; [destruct (shallowEqual _ _) eqn:E|]; simpl;
    try (split; apply show2).
  apply equal_surname in E. simpl in Hf. rewrite <- E. split; exact Hf.
Qed.

Lemma Home_on_screen st w :
  faithful1 (Root.child1 st) -> faithful2 surname_of (Root.child2 st) ->
  on_screen surname_of (Home st w).
Proof.
  intros H1 H2. rewrite (Home_eq C1 C2 props2). cbv zeta.
  unfold on_screen, leaf1, leaf2.
  cbn [fst Root.child1 Root.child2 Root.view Root.name Root.surname content nth_error].
  set (r := props2 _ _ w).
  destruct (memo1_faithful (Root.child1 st)
              {| NameProps.name := Root.name st |} (snd r) H1) as [F1 D1].
  set (m1 := memo C1 _ _ (snd r)) in *.
  destruct (memo2_faithful (Root.child2 st) (fst (fst r)) (snd m1) H2) as [F2 D2].
  repeat split; try assumption.
  rewrite D2. subst r. rewrite built_surname. reflexivity.
Qed.

Lemma on_screen_mount : on_screen surname_of mount.
Proof. apply Home_on_screen; exact I. Qed.

Lemma on_screen_change f v a :
  on_screen surname_of a -> on_screen surname_of (change f v a).
Proof.
  intros Ha. rewrite (change_eq C1 C2 props2).
  destruct (String.eqb _ v); [exact Ha|].
  destruct Ha as (H1 & H2 & _).
  apply Home_on_screen; destruct f; assumption.
Qed.

Lemma on_screen_run evs :
  forall a, on_screen surname_of a -> on_screen surname_of (run evs a).
Proof.
  induction evs as [|[f v] evs IH]; intros a Ha; [exact Ha|].
  rewrite (run_cons C1 C2 props2). apply IH, on_screen_change, Ha.
Qed.

(** Entering [s] in an input and reading the value its leaf displays. *)
Lemma read_back evs s :
  displayed (leaf1 (Root.view (fst (change Name s (run evs mount))))) = Some s /\
  displayed (leaf2 (Root.view (fst (change Surname s (run evs mount))))) = Some s.
Proof.
  split.
  - destruct (on_screen_change Name s _ (on_screen_run evs _ on_screen_mount))
      as (_ & _ & D & _).
    rewrite D. f_equal. apply (change_cells C1 C2 props2 Name).
  - destruct (on_screen_change Surname s _ (on_screen_run evs _ on_screen_mount))
      as (_ & _ & _ & D).
    rewrite D. f_equal. apply (change_cells C1 C2 props2 Surname).
Qed.

End Screen.

Lemma equal_surname_plain (p q : SurnameProps.Props) :
  shallowEqual (props_object p) (props_object q) = true ->
  SurnameProps.surname p = SurnameProps.surname q.
Proof. rewrite shallowEqual_surname. apply String.eqb_eq. Qed.

Lemma equal_surname_data (p q : DataProps.Props) :
  shallowEqual (props_object p) (props_object q) = true ->
  DataProps.surname p = DataProps.surname q.
Proof.
  rewrite shallowEqual_data. intros [E _]%andb_prop.
  apply String.eqb_eq, E.
Qed.

Lemma equal_surname_func (p q : FuncProps.Props) :
  shallowEqual (props_object p) (props_object q) = true ->
  FuncProps.surname p = FuncProps.surname q.
Proof.
  rewrite shallowEqual_func. intros [[E _]%andb_prop _]%andb_prop.
  apply String.eqb_eq, E.
Qed.

Lemma built_surname_memo_data s hk w :
  DataProps.surname (fst (fst (Root.MemoData.props2 s hk w))) = s.
Proof. unfold Root.MemoData.props2. run_hooks; reflexivity. Qed.

Lemma built_surname_inline_func s hk w :
  FuncProps.surname (fst (fst (Root.InlineFunc.props2 s hk w))) = s.
Proof. unfold Root.InlineFunc.props2. run_hooks; reflexivity. Qed.

Lemma built_surname_final s hk w :
  FuncProps.surname (fst (fst (Root.Final.props2 s hk w))) = s.
Proof. unfold Root.Final.props2. run_hooks; reflexivity. Qed.

Lemma show_Component1 h p :
  displayed (Some (leaf_view (C := NameProps.Div.Component1) h p)) =
  Some (NameProps.name p).
Proof. reflexivity. Qed.

Lemma show_Component2_surname h p :
  displayed (Some (leaf_view (C := SurnameProps.Component2) h p)) =
  Some (SurnameProps.surname p).
Proof. reflexivity. Qed.

Lemma show_Component2_data h p :
  displayed (Some (leaf_view (C := DataProps.Component2) h p)) =
  Some (DataProps.surname p).
Proof. reflexivity. Qed.

Lemma show_Component2_func h p :
  displayed (Some (leaf_view (C := FuncProps.Div.Component2) h p)) =
  Some (FuncProps.surname p).
Proof. reflexivity. Qed.

(** C5. Round trip through the state cell. From every state the
    application can reach, in every variant of [Home]: after the string [s]
    is entered in the name input, the value [Component1] displays after
    ["Name: "] is [s] itself, and after [s] is entered in the surname input,
    the value [Component2] displays after ["Surname: "] is [s] itself. *)
Theorem entered_text_is_displayed_unchanged :
  forall (evs : list (field * string)) (s : string),
    (displayed (leaf1 (Root.view (fst
       (Root.Plain.change Name s (Root.Plain.run evs Root.Plain.mount))))) = Some s /\
     displayed (leaf2 (Root.view (fst
       (Root.Plain.change Surname s (Root.Plain.run evs Root.Plain.mount))))) = Some s)
    /\
    (displayed (leaf1 (Root.view (fst
       (Root.InlineData.change Name s
          (Root.InlineData.run evs Root.InlineData.mount))))) = Some s /\
     displayed (leaf2 (Root.view (fst
       (Root.InlineData.change Surname s
          (Root.InlineData.run evs Root.InlineData.mount))))) = Some s)
    /\
    (displayed (leaf1 (Root.view (fst
       (Root.MemoData.change Name s
          (Root.MemoData.run evs Root.MemoData.mount))))) = Some s /\
     displayed (leaf2 (Root.view (fst
       (Root.MemoData.change Surname s
          (Root.MemoData.run evs Root.MemoData.mount))))) = Some s)
    /\
    (displayed (leaf1 (Root.view (fst
       (Root.InlineFunc.change Name s
          (Root.InlineFunc.run evs Root.InlineFunc.mount))))) = Some s /\
     displayed (leaf2 (Root.view (fst
       (Root.InlineFunc.change Surname s
          (Root.InlineFunc.run evs Root.InlineFunc.mount))))) = Some s)
    /\
    (displayed (leaf1 (Root.view (fst
       (Root.Final.change Name s (Root.Final.run evs Root.Final.mount))))) = Some s /\
     displayed (leaf2 (Root.view (fst
       (Root.Final.change Surname s (Root.Final.run evs Root.Final.mount))))) = Some s).
Proof.
  intros evs s. repeat apply conj.
  1, 2: apply (read_back NameProps.Div.Component1 SurnameProps.Component2
                 Root.Plain.props2 SurnameProps.surname
                 (fun _ _ _ => eq_refl) equal_surname_plain
                 show_Component1 show_Component2_surname evs s).
  1, 2: apply (read_back NameProps.Div.Component1 DataProps.Component2
                 Root.InlineData.props2 DataProps.surname
                 (fun _ _ _ => eq_refl) equal_surname_data
                 show_Component1 show_Component2_data evs s).
  1, 2: apply (read_back NameProps.Div.Component1 DataProps.Component2
                 Root.MemoData.props2 DataProps.surname
                 built_surname_memo_data equal_surname_data
                 show_Component1 show_Component2_data evs s).
  1, 2: apply (read_back NameProps.Div.Component1 FuncProps.Div.Component2
                 Root.InlineFunc.props2 FuncProps.surname
                 built_surname_inline_func equal_surname_func
                 show_Component1 show_Component2_func evs s).
  1, 2: apply (read_back NameProps.Div.Component1 FuncProps.Div.Component2
                 Root.Final.props2 FuncProps.surname
                 built_surname_final equal_surname_func
                 show_Component1 show_Component2_func evs s).
Qed.

(** ** The two state cells *)

(** C7. The input handlers write their own cell only. In every variant of
    [Home] and from every state: a change event of the name input with the
    text [v] leaves the state cells as [(v, surname)], and a change event of
    the surname input leaves them as [(name, v)]. The same holds of the
    setters themselves, whether they ask for a render or bail out. *)
Theorem handlers_write_their_own_cell :
  forall (P2 : Type) (HP : PropSet P2)
         (C1 : NameProps.Props -> M element) (C2 : P2 -> M element)
         (props2 : string -> Root.hooks -> M (P2 * Root.hooks))
         (v : string) (a : Root.app P2),
    (Root.name (fst (Root.change C1 C2 props2 Name v a)) = v /\
     Root.surname (fst (Root.change C1 C2 props2 Name v a)) = Root.surname (fst a))
    /\
    (Root.name (fst (Root.change C1 C2 props2 Surname v a)) = Root.name (fst a) /\
     Root.surname (fst (Root.change C1 C2 props2 Surname v a)) = v)
    /\
    match Root.setName v (fst a) with
    | Some st => Root.name st = v /\ Root.surname st = Root.surname (fst a)
    | None => Root.name (fst a) = v
    end
    /\
    match Root.setSurname v (fst a) with
    | Some st => Root.name st = Root.name (fst a) /\ Root.surname st = v
    | None => Root.surname (fst a) = v
    end.
Proof.
  intros P2 HP C1 C2 props2 v a. repeat apply conj.
  1, 2: apply (change_cells C1 C2 props2 Name v a).
  1, 2: apply (change_cells C1 C2 props2 Surname v a).
  - unfold Root.setName. rewrite setState_eq.
    destruct (String.eqb _ v) eqn:E; [apply String.eqb_eq, E|split; reflexivity].
  - unfold Root.setSurname. rewrite setState_eq.
    destruct (String.eqb _ v) eqn:E; [apply String.eqb_eq, E|split; reflexivity].
Qed.

(** C8. In every variant of [Home], both state cells hold the empty string
    at mount. An evaluation of [Home] leaves both cells as they are, and
    after a change event each cell holds the event's text if the event came
    from its own input and its previous value otherwise: nothing but the
    change event of its own input writes to a cell. *)
Theorem cells_start_empty_and_have_one_writer :
  forall (P2 : Type) (HP : PropSet P2)
         (C1 : NameProps.Props -> M element) (C2 : P2 -> M element)
         (props2 : string -> Root.hooks -> M (P2 * Root.hooks)),
    (Root.name (fst (Root.mount C1 C2 props2)) = EmptyString /\
     Root.surname (fst (Root.mount C1 C2 props2)) = EmptyString)
    /\
    (forall st w,
       Root.name (fst (Root.Home C1 C2 props2 st w)) = Root.name st /\
       Root.surname (fst (Root.Home C1 C2 props2 st w)) = Root.surname st)
    /\
    (forall f v a,
       Root.name (fst (Root.change C1 C2 props2 f v a)) =
         match f with Name => v | Surname => Root.name (fst a) end /\
       Root.surname (fst (Root.change C1 C2 props2 f v a)) =
         match f with Name => Root.surname (fst a) | Surname => v end).
Proof.
  intros P2 HP C1 C2 props2. split; [|split].
  - apply (Home_cells C1 C2 props2).
  - apply Home_cells.
  - apply change_cells.
Qed.

(** * Further properties of the program *)

(** ** Render counts as a function of the event history *)

Lemma changes_one f cur g v evs :
  changes f cur ((g, v) :: evs) =
  changes f cur [(g, v)] + changes f (cell_after f cur [(g, v)]) evs.
Proof.
  simpl. destruct (field_eqb f g); [|reflexivity].
  destruct (String.eqb cur v) eqn:E; [|reflexivity].
  apply String.eqb_eq in E. subst. reflexivity.
Qed.

Section Counting.

Context {P2 : Type} `{PropSet P2}.
Variable C1 : NameProps.Props -> M element.
Variable C2 : P2 -> M element.
Variable props2 : string -> Root.hooks -> M (P2 * Root.hooks).
Context `{!Leaf C1} `{!Leaf C2}.

Hypothesis tag1 : leaf_tag (C := C1) = "Component1 :: render".
Hypothesis tag2 : leaf_tag (C := C2) = "Component2 :: render".
Hypothesis props2_console : forall s hk w,
  console (snd (props2 s hk w)) = console w.

Notation Home := (Root.Home C1 C2 props2).
Notation change := (Root.change C1 C2 props2).
Notation run := (Root.run C1 C2 props2).
Notation mount := (Root.mount C1 C2 props2).
Notation count1 := (Root.renders "Component1 :: render").
Notation count2 := (Root.renders "Component2 :: render").

(** The render count of [Component1] over one evaluation of [Home]. *)
Lemma Home_count1 st w :
  count1 (snd (Home st w)) =
  count1 w +
  match Root.child1 st with
  | Some (prev, _) =>
      if String.eqb (NameProps.name prev) (Root.name st) then 0 else 1
  | None => 1
  end.
Proof.
  rewrite (Home_eq C1 C2 props2). cbv zeta. cbn [snd].
  set (r := props2 _ _ w).
  assert (Hr : count1 (snd r) = count1 w)
    by (apply renders_same_console, props2_console).
  rewrite (memo_run C2).
  assert (H1 : count1 (snd (memo C1 (Root.child1 st)
                 {| NameProps.name := Root.name st |} (snd r))) =
               count1 w +
               match Root.child1 st with
               | Some (prev, _) =>
                   if String.eqb (NameProps.name prev) (Root.name st) then 0 else 1
               | None => 1
               end).
  { rewrite (memo_run C1).
    destruct (Root.child1 st) as [[q o]|];
      [rewrite shallowEqual_name; cbn [NameProps.name];
       destruct (String.eqb _ _)|];
      cbn [snd]; rewrite ?renders_logged, ?tag1, ?String.eqb_refl; lia. }
  destruct (Root.child2 st) as [[q o]|]; [destruct (shallowEqual _ _)|];
    cbn [snd]; rewrite ?renders_logged, ?tag2; simpl; lia.
Qed.

Lemma Home_child1 st w :
  exists out, Root.child1 (fst (Home st w)) =
    Some ({| NameProps.name := Root.name st |}, out).
Proof.
  rewrite (Home_eq C1 C2 props2). cbv zeta. cbn [fst Root.child1].
  rewrite (memo_run C1).
  destruct (Root.child1 st) as [[q o]|]; [destruct (shallowEqual _ _)|];
    eexists; reflexivity.
Qed.

Lemma named_Home st w : named (Home st w).
Proof.
  destruct (Home_child1 st w) as [out Hc]. exists out.
  rewrite (proj1 (Home_cells C1 C2 props2 st w)). exact Hc.
Qed.

Lemma named_change f v a : named a -> named (change f v a).
Proof.
  intros Ha. rewrite (change_eq C1 C2 props2).
  destruct (String.eqb _ v); [exact Ha|apply named_Home].
Qed.

Lemma count1_change f v a :
  named a ->
  count1 (snd (change f v a)) =
  count1 (snd a) + changes Name (Root.name (fst a)) [(f, v)].
Proof.
  intros [out Hc]. rewrite (change_eq C1 C2 props2). simpl changes.
  destruct f; cbn [field_eqb].
  - destruct (String.eqb _ v) eqn:E; [lia|].
    rewrite Home_count1. cbn [Root.child1 Root.name].
    rewrite Hc. cbn [NameProps.name]. rewrite E. reflexivity.
  - destruct (String.eqb _ v) eqn:E; [lia|].
    rewrite Home_count1. cbn [Root.child1 Root.name].
    rewrite Hc. cbn [NameProps.name]. rewrite String.eqb_refl. reflexivity.
Qed.

Lemma cell_after_change f v a :
  Root.name (fst (change f v a)) = cell_after Name (Root.name (fst a)) [(f, v)] /\
  Root.surname (fst (change f v a)) =
    cell_after Surname (Root.surname (fst a)) [(f, v)].
Proof.
  destruct (change_cells C1 C2 props2 f v a) as [Hn Hs].
  rewrite Hn, Hs. destruct f; split; reflexivity.
Qed.

Lemma cell_after_run evs : forall a,
  Root.name (fst (run evs a)) = cell_after Name (Root.name (fst a)) evs /\
  Root.surname (fst (run evs a)) = cell_after Surname (Root.surname (fst a)) evs.
Proof.
  induction evs as [|[f v] evs IH]; intros a; [split; reflexivity|].
  rewrite (run_cons C1 C2 props2).
  destruct (IH (change f v a)) as [Hn Hs].
  destruct (cell_after_change f v a) as [Hn1 Hs1].
  rewrite Hn, Hs, Hn1, Hs1. split; reflexivity.
Qed.

Lemma count1_run evs : forall a,
  named a ->
  count1 (snd (run evs a)) = count1 (snd a) + changes Name (Root.name (fst a)) evs.
Proof.
  induction evs as [|[f v] evs IH]; intros a Ha; [simpl; lia|].
  rewrite (run_cons C1 C2 props2), changes_one.
  rewrite IH by (apply named_change, Ha).
  rewrite (count1_change f v a Ha).
  rewrite (proj1 (cell_after_change f v a)). lia.
Qed.

Lemma count1_from_mount evs :
  count1 (snd (run evs mount)) = 1 + changes Name EmptyString evs.
Proof.
  rewrite count1_run by apply named_Home.
  unfold Root.mount. rewrite Home_count1.
  rewrite (proj1 (Home_cells C1 C2 props2 _ _)). reflexivity.
Qed.

(** *** [Component2] under stable props *)

Section StableCounting.

Variable J : string -> Root.hooks -> P2 -> Prop.

Hypothesis J_built : forall s hk w,
  J s (snd (fst (props2 s hk w))) (fst (fst (props2 s hk w))).
Hypothesis J_same : forall s hk p w,
  J s hk p ->
  shallowEqual (props_object p) (props_object (fst (fst (props2 s hk w)))) = true.
Hypothesis J_other : forall s s' hk p w,
  J s hk p -> String.eqb s s' = false ->
  shallowEqual (props_object p) (props_object (fst (fst (props2 s' hk w)))) = false.

Lemma stable_count2_change f v a :
  settled J a ->
  count2 (snd (change f v a)) =
  count2 (snd a) + changes Surname (Root.surname (fst a)) [(f, v)].
Proof.
  intros Ha. destruct f; simpl changes.
  - rewrite (name_change_count2 C1 C2 props2 tag1 tag2 props2_console
               J J_same v a Ha). lia.
  - destruct (String.eqb _ v) eqn:E.
    + rewrite (change_eq C1 C2 props2), E. lia.
    + apply (surname_change_count2 C1 C2 props2 tag1 tag2 props2_console
               J J_other v a Ha E).
Qed.

Lemma stable_count2_run evs : forall a,
  settled J a ->
  count2 (snd (run evs a)) =
  count2 (snd a) + changes Surname (Root.surname (fst a)) evs.
Proof.
  induction evs as [|[f v] evs IH]; intros a Ha; [simpl; lia|].
  rewrite (run_cons C1 C2 props2), changes_one.
  rewrite IH by (apply (settled_change C1 C2 props2 J J_built), Ha).
  rewrite (stable_count2_change f v a Ha).
  rewrite (proj2 (cell_after_change f v a)). lia.
Qed.

Lemma stable_count2_from_mount evs :
  count2 (snd (run evs mount)) = 1 + changes Surname EmptyString evs.
Proof.
  rewrite stable_count2_run by apply (settled_Home C1 C2 props2 J J_built).
  unfold Root.mount.
  rewrite (Home_count2 C1 C2 props2 tag1 tag2 props2_console).
  rewrite (proj2 (Home_cells C1 C2 props2 _ _)). reflexivity.
Qed.

End StableCounting.

(** *** [Component2] under props allocated by each render *)

Section FreshCounting.

Variable F : heap -> P2 -> Prop.

Hypothesis F_built : forall s hk w,
  F (store (snd (props2 s hk w))) (fst (fst (props2 s hk w))).
Hypothesis F_other : forall s hk p w,
  F (store w) p ->
  shallowEqual (props_object p) (props_object (fst (fst (props2 s hk w)))) = false.

Lemma fresh_count2_change f v a :
  churning F a ->
  count2 (snd (change f v a)) =
  count2 (snd a) + changes Name (Root.name (fst a)) [(f, v)]
                 + changes Surname (Root.surname (fst a)) [(f, v)].
Proof.
  intros (p & out & Hc & Hf). rewrite (change_eq C1 C2 props2). simpl changes.
  destruct f; cbn [field_eqb];
    (destruct (String.eqb _ v) eqn:E; [lia|]);
    rewrite (Home_count2 C1 C2 props2 tag1 tag2 props2_console);
    cbn [Root.child2 Root.surname Root.slots];
    rewrite Hc, (F_other _ _ _ _ Hf); lia.
Qed.

Lemma fresh_count2_run evs : forall a,
  churning F a ->
  count2 (snd (run evs a)) =
  count2 (snd a) + changes Name (Root.name (fst a)) evs
                 + changes Surname (Root.surname (fst a)) evs.
Proof.
  induction evs as [|[f v] evs IH]; intros a Ha; [simpl; lia|].
  rewrite (run_cons C1 C2 props2), (changes_one Name), (changes_one Surname).
  rewrite IH by (apply (churning_change C1 C2 props2 F F_built), Ha).
  rewrite (fresh_count2_change f v a Ha).
  destruct (cell_after_change f v a) as [Hn Hs]. rewrite Hn, Hs. lia.
Qed.

Lemma fresh_count2_from_mount evs :
  count2 (snd (run evs mount)) =
  1 + changes Name EmptyString evs + changes Surname EmptyString evs.
Proof.
  rewrite fresh_count2_run by apply (churning_Home C1 C2 props2 F F_built).
  unfold Root.mount.
  rewrite (Home_count2 C1 C2 props2 tag1 tag2 props2_console).
  destruct (Home_cells C1 C2 props2
              {| Root.name := EmptyString; Root.surname := EmptyString;
                 Root.slots := {| Root.data_slot := None; Root.func_slot := None |};
                 Root.child1 := None; Root.child2 := None;
                 Root.view := Fragment [] |} (World [] [])) as [Hn Hs].
  rewrite Hn, Hs. reflexivity.
Qed.

End FreshCounting.

End Counting.

(** X1. [Component1] renders at mount and then once for each change event of
    the name input that changes its text, and never otherwise: change
    events of the surname input do not reach it, in the optimized variants
    and in the naive ones alike. *)
Theorem Component1_renders_once_per_name_change :
  forall evs : list (field * string),
    Root.renders "Component1 :: render" (snd (Root.Plain.run evs Root.Plain.mount)) =
      1 + changes Name EmptyString evs
    /\ Root.renders "Component1 :: render"
         (snd (Root.InlineData.run evs Root.InlineData.mount)) =
       1 + changes Name EmptyString evs
    /\ Root.renders "Component1 :: render"
         (snd (Root.MemoData.run evs Root.MemoData.mount)) =
       1 + changes Name EmptyString evs
    /\ Root.renders "Component1 :: render"
         (snd (Root.InlineFunc.run evs Root.InlineFunc.mount)) =
       1 + changes Name EmptyString evs
    /\ Root.renders "Component1 :: render"
         (snd (Root.Final.run evs Root.Final.mount)) =
       1 + changes Name EmptyString evs.
Proof.
  intros evs. repeat apply conj.
  - exact (count1_from_mount NameProps.Div.Component1 SurnameProps.Component2
             Root.Plain.props2 eq_refl eq_refl plain_props2_console evs).
  - exact (count1_from_mount NameProps.Div.Component1 DataProps.Component2
             Root.InlineData.props2 eq_refl eq_refl inline_data_props2_console evs).
  - exact (count1_from_mount NameProps.Div.Component1 DataProps.Component2
             Root.MemoData.props2 eq_refl eq_refl memo_data_props2_console evs).
  - exact (count1_from_mount NameProps.Div.Component1 FuncProps.Div.Component2
             Root.InlineFunc.props2 eq_refl eq_refl inline_func_props2_console evs).
  - exact (count1_from_mount NameProps.Div.Component1 FuncProps.Div.Component2
             Root.Final.props2 eq_refl eq_refl final_props2_console evs).
Qed.

(** X2. With memoization applied and the structured props stabilized,
    [Component2] renders at mount and then once for each change event of the
    surname input that changes its text, and never otherwise, whatever the
    events of the name input in between. *)
Theorem Component2_renders_once_per_surname_change :
  forall evs : list (field * string),
    Root.renders "Component2 :: render" (snd (Root.Plain.run evs Root.Plain.mount)) =
      1 + changes Surname EmptyString evs
    /\ Root.renders "Component2 :: render"
         (snd (Root.MemoData.run evs Root.MemoData.mount)) =
       1 + changes Surname EmptyString evs
    /\ Root.renders "Component2 :: render"
         (snd (Root.Final.run evs Root.Final.mount)) =
       1 + changes Surname EmptyString evs.
Proof.
  intros evs. repeat apply conj.
  - exact (stable_count2_from_mount NameProps.Div.Component1 SurnameProps.Component2
             Root.Plain.props2 eq_refl eq_refl plain_props2_console
             built_plain plain_built plain_same plain_other evs).
  - exact (stable_count2_from_mount NameProps.Div.Component1 DataProps.Component2
             Root.MemoData.props2 eq_refl eq_refl memo_data_props2_console
             built_memo_data memo_data_built memo_data_same memo_data_other evs).
  - exact (stable_count2_from_mount NameProps.Div.Component1 FuncProps.Div.Component2
             Root.Final.props2 eq_refl eq_refl final_props2_console
             built_final final_built final_same final_other evs).
Qed.

(** X3. In the naive variants ([data={{}}], or [func={() => undefined}] beside
    the memoized [data]) the memoized [Component2] renders on every
    evaluation of [Home]: at mount and once for each change event, of either
    input, that changes the text of its input. *)
Theorem naive_Component2_renders_on_every_change :
  forall evs : list (field * string),
    Root.renders "Component2 :: render"
      (snd (Root.InlineData.run evs Root.InlineData.mount)) =
      1 + changes Name EmptyString evs + changes Surname EmptyString evs
    /\ Root.renders "Component2 :: render"
         (snd (Root.InlineFunc.run evs Root.InlineFunc.mount)) =
       1 + changes Name EmptyString evs + changes Surname EmptyString evs.
Proof.
  intros evs. split.
  - exact (fresh_count2_from_mount NameProps.Div.Component1 DataProps.Component2
             Root.InlineData.props2 eq_refl eq_refl inline_data_props2_console
             fresh_inline_data inline_data_fresh inline_data_differs evs).
  - exact (fresh_count2_from_mount NameProps.Div.Component1 FuncProps.Div.Component2
             Root.InlineFunc.props2 eq_refl eq_refl inline_func_props2_console
             fresh_inline_func inline_func_fresh inline_func_differs evs).
Qed.

(** ** The application without [memo] *)

Lemma unmemoized_Home_eq st w :
  Unmemoized.Home st w =
  ({| Unmemoized.name := Unmemoized.name st;
      Unmemoized.surname := Unmemoized.surname st;
      Unmemoized.view :=
        screen no_data (Unmemoized.name st) (Unmemoized.surname st) |},
   World (store w)
     (console w ++
      [ Logline "Component1 :: render" [("name", VStr (Unmemoized.name st))];
        Logline "Component2 :: render" [("surname", VStr (Unmemoized.surname st))] ])%list).
Proof.
  unfold Unmemoized.Home, bind, ret, NameProps.Div.Component1,
    SurnameProps.Component2, console_log. simpl.
  rewrite <- app_assoc. reflexivity.
Qed.

Lemma unmemoized_change_eq f v a :
  Unmemoized.change f v a =
  if String.eqb (match f with Name => Unmemoized.name (fst a)
                            | Surname => Unmemoized.surname (fst a) end) v
  then a
  else Unmemoized.Home
         (match f with
          | Name => {| Unmemoized.name := v;
                       Unmemoized.surname := Unmemoized.surname (fst a);
                       Unmemoized.view := Unmemoized.view (fst a) |}
          | Surname => {| Unmemoized.name := Unmemoized.name (fst a);
                          Unmemoized.surname := v;
                          Unmemoized.view := Unmemoized.view (fst a) |}
          end) (snd a).
Proof.
  unfold Unmemoized.change, Unmemoized.onChange, Unmemoized.setName,
    Unmemoized.setSurname.
  destruct f; rewrite setState_eq; destruct (String.eqb _ v); reflexivity.
Qed.

Lemma unmemoized_change_cells f v a :
  Unmemoized.name (fst (Unmemoized.change f v a)) =
    cell_after Name (Unmemoized.name (fst a)) [(f, v)] /\
  Unmemoized.surname (fst (Unmemoized.change f v a)) =
    cell_after Surname (Unmemoized.surname (fst a)) [(f, v)].
Proof.
  rewrite unmemoized_change_eq.
  destruct f; (destruct (String.eqb _ v) eqn:E;
    [apply String.eqb_eq in E; subst; split; reflexivity
    |rewrite unmemoized_Home_eq; split; reflexivity]).
Qed.

Lemma unmemoized_change_counts f v a :
  Root.renders "Component1 :: render" (snd (Unmemoized.change f v a)) =
    Root.renders "Component1 :: render" (snd a)
    + changes Name (Unmemoized.name (fst a)) [(f, v)]
    + changes Surname (Unmemoized.surname (fst a)) [(f, v)]
  /\
  Root.renders "Component2 :: render" (snd (Unmemoized.change f v a)) =
    Root.renders "Component2 :: render" (snd a)
    + changes Name (Unmemoized.name (fst a)) [(f, v)]
    + changes Surname (Unmemoized.surname (fst a)) [(f, v)].
Proof.
  rewrite unmemoized_change_eq. simpl changes.
  destruct f; cbn [field_eqb];
    (destruct (String.eqb _ v) eqn:E; [split; lia|]);
    rewrite unmemoized_Home_eq; unfold Root.renders; cbn [snd console];
    rewrite !filter_app, !length_app; simpl; split; lia.
Qed.

Lemma unmemoized_run_cons f v evs a :
  Unmemoized.run ((f, v) :: evs) a = Unmemoized.run evs (Unmemoized.change f v a).
Proof. reflexivity. Qed.

Lemma unmemoized_run_counts evs : forall a,
  Root.renders "Component1 :: render" (snd (Unmemoized.run evs a)) =
    Root.renders "Component1 :: render" (snd a)
    + changes Name (Unmemoized.name (fst a)) evs
    + changes Surname (Unmemoized.surname (fst a)) evs
  /\
  Root.renders "Component2 :: render" (snd (Unmemoized.run evs a)) =
    Root.renders "Component2 :: render" (snd a)
    + changes Name (Unmemoized.name (fst a)) evs
    + changes Surname (Unmemoized.surname (fst a)) evs.
Proof.
  induction evs as [|[f v] evs IH]; intros a; [simpl; split; lia|].
  rewrite unmemoized_run_cons, (changes_one Name), (changes_one Surname).
  destruct (IH (Unmemoized.change f v a)) as [I1 I2].
  destruct (unmemoized_change_counts f v a) as [C1 C2].
  destruct (unmemoized_change_cells f v a) as [Hn Hs].
  rewrite I1, I2, C1, C2, Hn, Hs. split; lia.
Qed.

(** X4. Without [memo], both leaves render on every evaluation of [Home]: each
    of them renders at mount and once for each change event, of either
    input, that changes the text of its input. In particular [Component2]
    renders again for every keystroke in the name input, with a surname
    that has not changed. *)
Theorem unmemoized_leaves_render_on_every_change :
  forall evs : list (field * string),
    Root.renders "Component1 :: render" (snd (Unmemoized.run evs Unmemoized.mount)) =
      1 + changes Name EmptyString evs + changes Surname EmptyString evs
    /\ Root.renders "Component2 :: render" (snd (Unmemoized.run evs Unmemoized.mount)) =
       1 + changes Name EmptyString evs + changes Surname EmptyString evs.
Proof.
  intros evs. destruct (unmemoized_run_counts evs Unmemoized.mount) as [H1 H2].
  rewrite H1, H2. split; reflexivity.
Qed.

(** ** The screen after any history of events *)

Lemma lookup_app_some h l r c :
  lookup h r = Some c -> lookup (h ++ l)%list r = Some c.
Proof.
  unfold lookup. intros Hr. rewrite nth_error_app1; [exact Hr|].
  apply nth_error_Some. rewrite Hr. discriminate.
Qed.

Lemma lookup_new h c : lookup (h ++ [c])%list (length h) = Some c.
Proof.
  unfold lookup. rewrite nth_error_app2 by lia.
  rewrite Nat.sub_diag. reflexivity.
Qed.

Lemma data_cached_grow hk h l :
  data_cached hk h -> data_cached hk (h ++ l)%list.
Proof. intros Hc s d Hs. apply lookup_app_some, (Hc s d Hs). Qed.

(** The [useMemo] of [data]: the reference it returns is that of an object
    [{ surname }] of the current surname, cached or new. *)
Lemma useMemo_data s sl w :
  (forall s0 d, sl = Some ([VStr s0], d) ->
                lookup (store w) d = Some (CObj [("surname", JStr s0)])) ->
  let r := useMemo (alloc (CObj [("surname", JStr s)])) [VStr s] sl w in
  lookup (store (snd r)) (fst (fst r)) = Some (CObj [("surname", JStr s)]) /\
  (forall s0 d, snd (fst r) = Some ([VStr s0], d) ->
                lookup (store (snd r)) d = Some (CObj [("surname", JStr s0)])) /\
  (exists l, store (snd r) = (store w ++ l)%list).
Proof.
  intros Hsl. unfold useMemo, bind, ret, alloc.
  destruct sl as [[deps c]|].
  - destruct (areHookInputsEqual [VStr s] deps) eqn:E; simpl.
    + apply hook_inputs_one in E. subst deps.
      repeat split; [apply (Hsl s c eq_refl)|exact Hsl|].
      exists []. rewrite app_nil_r. reflexivity.
    + repeat split; [apply lookup_new| |eexists; reflexivity].
      intros s0 d [= <- <-]. apply lookup_new.
  - simpl. repeat split; [apply lookup_new| |eexists; reflexivity].
    intros s0 d [= <- <-]. apply lookup_new.
Qed.

Section Shape.

Context {P2 : Type} `{PropSet P2}.
Variable C2 : P2 -> M element.
Variable props2 : string -> Root.hooks -> M (P2 * Root.hooks).
Context `{!Leaf C2}.

Variable surname_of : P2 -> string.
Variable data : string -> option string.
Variable G : Root.hooks -> heap -> Prop.

Hypothesis built_surname : forall s hk w,
  surname_of (fst (fst (props2 s hk w))) = s.
Hypothesis equal_surname : forall p q,
  shallowEqual (props_object p) (props_object q) = true ->
  surname_of p = surname_of q.
Hypothesis G_mount : G {| Root.data_slot := None; Root.func_slot := None |} [].
Hypothesis G_step : forall s hk w,
  G hk (store w) ->
  G (snd (fst (props2 s hk w))) (store (snd (props2 s hk w))) /\
  leaf_view (C := C2) (store (snd (props2 s hk w))) (fst (fst (props2 s hk w))) =
    Component2_screen s (data s).

Notation C1 := NameProps.Div.Component1.
Notation Home := (Root.Home C1 C2 props2).
Notation change := (Root.change C1 C2 props2).
Notation run := (Root.run C1 C2 props2).
Notation mount := (Root.mount C1 C2 props2).
Notation shape := (in_shape surname_of data G).

Lemma memo1_renders fb p w :
  renders1 fb ->
  renders1 (fst (fst (memo C1 fb p w))) /\
  snd (fst (memo C1 fb p w)) = Component1_screen (NameProps.name p).
Proof.
  intros Hf. rewrite (memo_run C1).
  destruct fb as [[q o]|]; [destruct (shallowEqual _ _) eqn:E|]; simpl;
    try (split; reflexivity).
  rewrite shallowEqual_name in E. apply String.eqb_eq in E.
  simpl in Hf. rewrite <- E. split; exact Hf.
Qed.

Lemma memo2_renders fb p w :
  renders2 surname_of data fb ->
  leaf_view (C := C2) (store w) p =
    Component2_screen (surname_of p) (data (surname_of p)) ->
  renders2 surname_of data (fst (fst (memo C2 fb p w))) /\
  snd (fst (memo C2 fb p w)) =
    Component2_screen (surname_of p) (data (surname_of p)).
Proof.
  intros Hf Hv. rewrite (memo_run C2).
  destruct fb as [[q o]|]; [destruct (shallowEqual _ _) eqn:E|]; simpl;
    try (split; exact Hv).
  apply equal_surname in E. simpl in Hf. rewrite <- E. split; exact Hf.
Qed.

Lemma Home_shape st w :
  G (Root.slots st) (store w) ->
  renders1 (Root.child1 st) -> renders2 surname_of data (Root.child2 st) ->
  shape (Home st w).
Proof.
  intros Hg H1 H2.
  destruct (G_step (Root.surname st) (Root.slots st) w Hg) as [Hg' Hv].
  unfold in_shape. rewrite (Home_store C1 C2 props2).
  rewrite (Home_eq C1 C2 props2). cbv zeta.
  cbn [fst Root.slots Root.child1 Root.child2 Root.view Root.name Root.surname].
  set (r := props2 _ _ w) in *.
  destruct (memo1_renders (Root.child1 st)
              {| NameProps.name := Root.name st |} (snd r) H1) as [F1 O1].
  set (m1 := memo C1 _ _ (snd r)) in *.
  assert (Hs : surname_of (fst (fst r)) = Root.surname st)
    by (subst r; apply built_surname).
  assert (Hv' : leaf_view (C := C2) (store (snd m1)) (fst (fst r)) =
                Component2_screen (surname_of (fst (fst r)))
                  (data (surname_of (fst (fst r))))).
  { subst m1. rewrite (memo_store C1), Hs. exact Hv. }
  destruct (memo2_renders (Root.child2 st) (fst (fst r)) (snd m1) H2 Hv')
    as [F2 O2].
  repeat split; try assumption.
  rewrite O1, O2, Hs. reflexivity.
Qed.

Lemma shape_mount : shape mount.
Proof. apply Home_shape; [exact G_mount|exact I|exact I]. Qed.

Lemma shape_change f v a : shape a -> shape (change f v a).
Proof.
  intros Ha. rewrite (change_eq C1 C2 props2).
  destruct (String.eqb _ v); [exact Ha|].
  destruct Ha as (Hg & H1 & H2 & _).
  apply Home_shape; destruct f; assumption.
Qed.

Lemma shape_run evs : forall a, shape a -> shape (run evs a).
Proof.
  induction evs as [|[f v] evs IH]; intros a Ha; [exact Ha|].
  rewrite (run_cons C1 C2 props2). apply IH, shape_change, Ha.
Qed.

Lemma screen_after evs :
  Root.view (fst (run evs mount)) =
  screen data (cell_after Name EmptyString evs) (cell_after Surname EmptyString evs).
Proof.
  destruct (shape_run evs _ shape_mount) as (_ & _ & _ & Hv).
  rewrite Hv.
  destruct (cell_after_run C1 C2 props2 evs mount) as [Hn Hs].
  rewrite Hn, Hs.
  destruct (Home_cells C1 C2 props2
              {| Root.name := EmptyString; Root.surname := EmptyString;
                 Root.slots := {| Root.data_slot := None; Root.func_slot := None |};
                 Root.child1 := None; Root.child2 := None;
                 Root.view := Fragment [] |} (World [] [])) as [Hn0 Hs0].
  unfold Root.mount. rewrite Hn0, Hs0. reflexivity.
Qed.

End Shape.

Lemma memo_data_props2_eq s hk w :
  Root.MemoData.props2 s hk w =
  let m := useMemo (alloc (CObj [("surname", JStr s)])) [VStr s]
             (Root.data_slot hk) w in
  ({| DataProps.surname := s; DataProps.data := fst (fst m) |},
   {| Root.data_slot := snd (fst m); Root.func_slot := Root.func_slot hk |},
   snd m).
Proof.
  unfold Root.MemoData.props2, bind.
  destruct (useMemo _ _ _ w) as [[d sl] w']. reflexivity.
Qed.

Lemma inline_func_props2_eq s hk w :
  Root.InlineFunc.props2 s hk w =
  let m := useMemo (alloc (CObj [("surname", JStr s)])) [VStr s]
             (Root.data_slot hk) w in
  ({| FuncProps.surname := s; FuncProps.data := fst (fst m);
      FuncProps.func := length (store (snd m)) |},
   {| Root.data_slot := snd (fst m); Root.func_slot := Root.func_slot hk |},
   World (store (snd m) ++ [CFun])%list (console (snd m))).
Proof.
  unfold Root.InlineFunc.props2, bind.
  destruct (useMemo _ _ _ w) as [[d sl] w']. reflexivity.
Qed.

Lemma useCallback_eq fn deps sl w :
  useCallback fn deps sl w =
  (match sl with
   | Some (prevDeps, cached) =>
       if areHookInputsEqual deps prevDeps then (cached, sl)
       else (fn, Some (deps, fn))
   | None => (fn, Some (deps, fn))
   end, w).
Proof.
  unfold useCallback, ret.
  destruct sl as [[pd c]|]; [destruct (areHookInputsEqual _ _)|]; reflexivity.
Qed.

Lemma final_props2_eq s hk w :
  Root.Final.props2 s hk w =
  let m := useMemo (alloc (CObj [("surname", JStr s)])) [VStr s]
             (Root.data_slot hk) w in
  let w2 := World (store (snd m) ++ [CFun])%list (console (snd m)) in
  let c := fst (useCallback (length (store (snd m))) [] (Root.func_slot hk) w2) in
  ({| FuncProps.surname := s; FuncProps.data := fst (fst m);
      FuncProps.func := fst c |},
   {| Root.data_slot := snd (fst m); Root.func_slot := snd c |},
   w2).
Proof.
  unfold Root.Final.props2, bind.
  destruct (useMemo _ _ _ w) as [[d sl] w']. simpl.
  rewrite useCallback_eq. simpl.
  destruct (match Root.func_slot hk with Some _ => _ | None => _ end).
  reflexivity.
Qed.

Lemma leaf_view_data h (p : DataProps.Props) fields :
  lookup h (DataProps.data p) = Some (CObj fields) ->
  leaf_view (C := DataProps.Component2) h p =
  Component2_screen (DataProps.surname p) (Some (stringify (JObj fields))).
Proof.
  intros Hl. unfold leaf_view, Leaf_Component2_data, DataProps.Component2,
    bind, console_log, JSON_stringify, ret.
  cbn [fst snd store]. rewrite Hl. reflexivity.
Qed.

Lemma leaf_view_func h (p : FuncProps.Props) fields :
  lookup h (FuncProps.data p) = Some (CObj fields) ->
  leaf_view (C := FuncProps.Div.Component2) h p =
  Component2_screen (FuncProps.surname p) (Some (stringify (JObj fields))).
Proof.
  intros Hl. unfold leaf_view, Leaf_Component2_div, FuncProps.Div.Component2,
    bind, console_log, JSON_stringify, ret.
  cbn [fst snd store]. rewrite Hl. reflexivity.
Qed.

Lemma plain_screen evs :
  Root.view (fst (Root.Plain.run evs Root.Plain.mount)) =
  screen no_data (cell_after Name EmptyString evs) (cell_after Surname EmptyString evs).
Proof.
  apply (screen_after SurnameProps.Component2 Root.Plain.props2
           SurnameProps.surname no_data (fun _ _ => True)
           (fun _ _ _ => eq_refl) equal_surname_plain I).
  intros s hk w _. split; [exact I|reflexivity].
Qed.

Lemma inline_data_screen evs :
  Root.view (fst (Root.InlineData.run evs Root.InlineData.mount)) =
  screen empty_data (cell_after Name EmptyString evs)
    (cell_after Surname EmptyString evs).
Proof.
  apply (screen_after DataProps.Component2 Root.InlineData.props2
           DataProps.surname empty_data (fun _ _ => True)
           (fun _ _ _ => eq_refl) equal_surname_data I).
  intros s hk w _. split; [exact I|].
  apply (leaf_view_data _ {| DataProps.surname := s;
                             DataProps.data := length (store w) |} []).
  apply lookup_new.
Qed.

Lemma memo_data_step s hk w :
  data_cached hk (store w) ->
  data_cached (snd (fst (Root.MemoData.props2 s hk w)))
    (store (snd (Root.MemoData.props2 s hk w))) /\
  leaf_view (C := DataProps.Component2)
    (store (snd (Root.MemoData.props2 s hk w)))
    (fst (fst (Root.MemoData.props2 s hk w))) =
  Component2_screen s (surname_data s).
Proof.
  intros Hg. rewrite memo_data_props2_eq. cbv zeta. cbn [fst snd].
  destruct (useMemo_data s (Root.data_slot hk) w Hg) as (Hl & Hc & _).
  split; [exact Hc|].
  apply (leaf_view_data _ {| DataProps.surname := s; DataProps.data := _ |} _ Hl).
Qed.

Lemma inline_func_step s hk w :
  data_cached hk (store w) ->
  data_cached (snd (fst (Root.InlineFunc.props2 s hk w)))
    (store (snd (Root.InlineFunc.props2 s hk w))) /\
  leaf_view (C := FuncProps.Div.Component2)
    (store (snd (Root.InlineFunc.props2 s hk w)))
    (fst (fst (Root.InlineFunc.props2 s hk w))) =
  Component2_screen s (surname_data s).
Proof.
  intros Hg. rewrite inline_func_props2_eq. cbv zeta. cbn [fst snd store].
  destruct (useMemo_data s (Root.data_slot hk) w Hg) as (Hl & Hc & _).
  split.
  - intros s0 d Hs. apply lookup_app_some, (Hc s0 d Hs).
  - apply (leaf_view_func _ {| FuncProps.surname := s; FuncProps.data := _;
                               FuncProps.func := _ |} _).
    apply lookup_app_some, Hl.
Qed.

Lemma final_step s hk w :
  data_cached hk (store w) ->
  data_cached (snd (fst (Root.Final.props2 s hk w)))
    (store (snd (Root.Final.props2 s hk w))) /\
  leaf_view (C := FuncProps.Div.Component2)
    (store (snd (Root.Final.props2 s hk w)))
    (fst (fst (Root.Final.props2 s hk w))) =
  Component2_screen s (surname_data s).
Proof.
  intros Hg. rewrite final_props2_eq. cbv zeta. cbn [fst snd store].
  destruct (useMemo_data s (Root.data_slot hk) w Hg) as (Hl & Hc & _).
  split.
  - intros s0 d Hs. apply lookup_app_some, (Hc s0 d Hs).
  - apply (leaf_view_func _ {| FuncProps.surname := s; FuncProps.data := _;
                               FuncProps.func := _ |} _).
    apply lookup_app_some, Hl.
Qed.

Lemma data_cached_mount :
  data_cached {| Root.data_slot := None; Root.func_slot := None |} [].
Proof. intros s d Hs. discriminate Hs. Qed.

Lemma memo_data_screen evs :
  Root.view (fst (Root.MemoData.run evs Root.MemoData.mount)) =
  screen surname_data (cell_after Name EmptyString evs)
    (cell_after Surname EmptyString evs).
Proof.
  exact (screen_after DataProps.Component2 Root.MemoData.props2
           DataProps.surname surname_data data_cached
           built_surname_memo_data equal_surname_data data_cached_mount
           memo_data_step evs).
Qed.

Lemma inline_func_screen evs :
  Root.view (fst (Root.InlineFunc.run evs Root.InlineFunc.mount)) =
  screen surname_data (cell_after Name EmptyString evs)
    (cell_after Surname EmptyString evs).
Proof.
  exact (screen_after FuncProps.Div.Component2 Root.InlineFunc.props2
           FuncProps.surname surname_data data_cached
           built_surname_inline_func equal_surname_func data_cached_mount
           inline_func_step evs).
Qed.

Lemma final_screen evs :
  Root.view (fst (Root.Final.run evs Root.Final.mount)) =
  screen surname_data (cell_after Name EmptyString evs)
    (cell_after Surname EmptyString evs).
Proof.
  exact (screen_after FuncProps.Div.Component2 Root.Final.props2
           FuncProps.surname surname_data data_cached
           built_surname_final equal_surname_func data_cached_mount
           final_step evs).
Qed.

Lemma unmemoized_shape evs : forall a,
  Unmemoized.view (fst a) =
    screen no_data (Unmemoized.name (fst a)) (Unmemoized.surname (fst a)) ->
  Unmemoized.view (fst (Unmemoized.run evs a)) =
    screen no_data (cell_after Name (Unmemoized.name (fst a)) evs)
      (cell_after Surname (Unmemoized.surname (fst a)) evs).
Proof.
  induction evs as [|[f v] evs IH]; intros a Ha; [exact Ha|].
  rewrite unmemoized_run_cons.
  destruct (unmemoized_change_cells f v a) as [Hn Hs].
  rewrite IH.
  - rewrite Hn, Hs. reflexivity.
  - rewrite unmemoized_change_eq.
    destruct (String.eqb _ v); [exact Ha|].
    rewrite unmemoized_Home_eq. reflexivity.
Qed.

Lemma unmemoized_screen evs :
  Unmemoized.view (fst (Unmemoized.run evs Unmemoized.mount)) =
  screen no_data (cell_after Name EmptyString evs) (cell_after Surname EmptyString evs).
Proof. apply (unmemoized_shape evs Unmemoized.mount). reflexivity. Qed.

(** X5. Whatever the history of change events, what [Home] shows is a function
    of the last text of each input alone: the two inputs hold the two texts,
    [Component1] displays the name, [Component2] the surname, and the [data]
    paragraph the serialized object of the variant, which for the memoized
    [{ surname }] is always the object of the current surname. *)
Theorem screen_is_a_function_of_the_cells :
  forall evs : list (field * string),
    let n := cell_after Name EmptyString evs in
    let s := cell_after Surname EmptyString evs in
    Unmemoized.view (fst (Unmemoized.run evs Unmemoized.mount)) = screen no_data n s
    /\ Root.view (fst (Root.Plain.run evs Root.Plain.mount)) = screen no_data n s
    /\ Root.view (fst (Root.InlineData.run evs Root.InlineData.mount)) =
       screen empty_data n s
    /\ Root.view (fst (Root.MemoData.run evs Root.MemoData.mount)) =
       screen surname_data n s
    /\ Root.view (fst (Root.InlineFunc.run evs Root.InlineFunc.mount)) =
       screen surname_data n s
    /\ Root.view (fst (Root.Final.run evs Root.Final.mount)) =
       screen surname_data n s.
Proof.
  intros evs n s. subst n s. repeat apply conj.
  - apply unmemoized_screen.
  - apply plain_screen.
  - apply inline_data_screen.
  - apply memo_data_screen.
  - apply inline_func_screen.
  - apply final_screen.
Qed.

(** X6. The optimizations change the console, never the screen: on the same
    events, the application with [memo] shows what the application without
    it shows, and the final code with [useMemo] and [useCallback] shows what
    the variant with an inline callback shows. *)
Theorem optimizations_keep_the_screen :
  forall evs : list (field * string),
    Root.view (fst (Root.Plain.run evs Root.Plain.mount)) =
    Unmemoized.view (fst (Unmemoized.run evs Unmemoized.mount))
    /\ Root.view (fst (Root.Final.run evs Root.Final.mount)) =
       Root.view (fst (Root.InlineFunc.run evs Root.InlineFunc.mount))
    /\ Root.view (fst (Root.Final.run evs Root.Final.mount)) =
       Root.view (fst (Root.MemoData.run evs Root.MemoData.mount)).
Proof.
  intros evs. repeat apply conj.
  - rewrite plain_screen, unmemoized_screen. reflexivity.
  - rewrite final_screen, inline_func_screen. reflexivity.
  - rewrite final_screen, memo_data_screen. reflexivity.
Qed.

(** ** The references [Component2] holds *)

Lemma hook_inputs_eqb a b :
  areHookInputsEqual [VStr a] [VStr b] = String.eqb a b.
Proof. unfold areHookInputsEqual, Object_is. apply andb_true_r. Qed.

Lemma final_in_shape evs :
  in_shape FuncProps.surname surname_data data_cached
    (Root.Final.run evs Root.Final.mount).
Proof.
  exact (shape_run FuncProps.Div.Component2 Root.Final.props2
           FuncProps.surname surname_data data_cached
           built_surname_final equal_surname_func final_step evs _
           (shape_mount FuncProps.Div.Component2 Root.Final.props2
              FuncProps.surname surname_data data_cached
              built_surname_final equal_surname_func data_cached_mount
              final_step)).
Qed.

Lemma inline_func_in_shape evs :
  in_shape FuncProps.surname surname_data data_cached
    (Root.InlineFunc.run evs Root.InlineFunc.mount).
Proof.
  exact (shape_run FuncProps.Div.Component2 Root.InlineFunc.props2
           FuncProps.surname surname_data data_cached
           built_surname_inline_func equal_surname_func inline_func_step evs _
           (shape_mount FuncProps.Div.Component2 Root.InlineFunc.props2
              FuncProps.surname surname_data data_cached
              built_surname_inline_func equal_surname_func data_cached_mount
              inline_func_step)).
Qed.

(** The props that the final [Home] builds when its hook slots are filled:
    the cached callback, and the cached object unless the surname is new. *)
Lemma final_props2_filled s s' d f hk w :
  Root.data_slot hk = Some ([VStr s], d) ->
  Root.func_slot hk = Some ([], f) ->
  fst (fst (Root.Final.props2 s' hk w)) =
    {| FuncProps.surname := s';
       FuncProps.data := if String.eqb s' s then d else length (store w);
       FuncProps.func := f |} /\
  Root.func_slot (snd (fst (Root.Final.props2 s' hk w))) = Some ([], f).
Proof.
  intros Hd Hf. rewrite final_props2_eq. cbv zeta. cbn [fst snd].
  rewrite useCallback_eq, Hf. cbn [fst snd].
  unfold useMemo, bind, ret, alloc. rewrite Hd, hook_inputs_eqb.
  destruct (String.eqb s' s); split; reflexivity.
Qed.

Lemma final_held evs :
  exists p out,
    Root.child2 (fst (Root.Final.run evs Root.Final.mount)) = Some (p, out) /\
    built_final (Root.surname (fst (Root.Final.run evs Root.Final.mount)))
      (Root.slots (fst (Root.Final.run evs Root.Final.mount))) p /\
    FuncProps.data p < length (store (snd (Root.Final.run evs Root.Final.mount))).
Proof.
  destruct (final_settled evs) as (p & out & Hc & Hj).
  exists p, out. split; [exact Hc|]. split; [exact Hj|].
  destruct (final_in_shape evs) as (Hg & _).
  destruct Hj as (_ & Hd & _).
  apply nth_error_Some. fold (lookup (store (snd (Root.Final.run evs Root.Final.mount)))
                                (FuncProps.data p)).
  rewrite (Hg _ _ Hd). discriminate.
Qed.

Lemma final_change_held evs f v :
  let a := Root.Final.run evs Root.Final.mount in
  String.eqb (match f with Name => Root.name (fst a)
                         | Surname => Root.surname (fst a) end) v = false ->
  exists p out p' out',
    Root.child2 (fst a) = Some (p, out) /\
    Root.child2 (fst (Root.Final.change f v a)) = Some (p', out') /\
    FuncProps.func p' = FuncProps.func p /\
    FuncProps.data p' =
      match f with
      | Name => FuncProps.data p
      | Surname => length (store (snd a))
      end /\
    FuncProps.data p < length (store (snd a)).
Proof.
  intros a Hv. destruct (final_held evs) as (p & out & Hc & (Hs & Hd & Hf) & Hlt).
  fold a in Hc, Hs, Hd, Hf, Hlt.
  unfold Root.Final.change.
  rewrite (change_eq NameProps.Div.Component1 FuncProps.Div.Component2
             Root.Final.props2), Hv.
  match goal with
  | |- context [Root.Home _ _ _ ?st ?w] =>
      destruct (Home_child2 NameProps.Div.Component1 FuncProps.Div.Component2
                  Root.Final.props2 st w) as [out' Hc']
  end.
  destruct f; cbn [Root.surname Root.slots] in Hc';
    [destruct (final_props2_filled _ (Root.surname (fst a)) _ _ _ (snd a) Hd Hf)
       as [Hp _]
    |destruct (final_props2_filled _ v _ _ _ (snd a) Hd Hf) as [Hp _]];
    rewrite Hp in Hc'; exists p, out; eexists; exists out';
    (split; [exact Hc|]); (split; [exact Hc'|]); cbn [FuncProps.func FuncProps.data].
  - rewrite String.eqb_refl. repeat split. exact Hlt.
  - rewrite String.eqb_sym, Hv. repeat split. exact Hlt.
Qed.

(** X7. In the final code the callback that [Component2] receives is one and
    the same function for the whole session: whatever the events, the [func]
    it holds is the reference it was mounted with. *)
Theorem final_func_is_stable :
  forall evs : list (field * string),
    held_func (Root.child2 (fst (Root.Final.run evs Root.Final.mount))) =
    held_func (Root.child2 (fst Root.Final.mount))
    /\ held_func (Root.child2 (fst Root.Final.mount)) <> None.
Proof.
  intros evs. split; [|discriminate].
  induction evs as [|[f v] evs IH] using rev_ind; [reflexivity|].
  rewrite <- IH. unfold Root.Final.run at 1.
  rewrite (run_app NameProps.Div.Component1 FuncProps.Div.Component2
             Root.Final.props2).
  change (Root.run NameProps.Div.Component1 FuncProps.Div.Component2
            Root.Final.props2 evs Root.Final.mount)
    with (Root.Final.run evs Root.Final.mount).
  rewrite (run_cons NameProps.Div.Component1 FuncProps.Div.Component2
             Root.Final.props2). cbn [Root.run fold_left].
  fold Root.Final.change.
  destruct (String.eqb (match f with
                        | Name => Root.name (fst (Root.Final.run evs Root.Final.mount))
                        | Surname => Root.surname (fst (Root.Final.run evs Root.Final.mount))
                        end) v) eqn:E.
  - unfold Root.Final.change.
    rewrite (change_eq NameProps.Div.Component1 FuncProps.Div.Component2
               Root.Final.props2), E. reflexivity.
  - destruct (final_change_held evs f v E)
      as (p & out & p' & out' & Hc & Hc' & Hf & _).
    rewrite Hc, Hc'. simpl. rewrite Hf. reflexivity.
Qed.

(** X8. In the final code the [data] object that [Component2] receives is
    replaced exactly when the surname changes. A change event of the name
    input leaves [Component2] with the reference it held, and a change
    event of the surname input that changes its text gives it the reference
    of an object allocated by that evaluation of [Home], different from the
    one it held. *)
Theorem final_data_follows_surname :
  forall (evs : list (field * string)) (v : string),
    let a := Root.Final.run evs Root.Final.mount in
    held_data (Root.child2 (fst (Root.Final.change Name v a))) =
      held_data (Root.child2 (fst a))
    /\
    (if String.eqb (Root.surname (fst a)) v
     then held_data (Root.child2 (fst (Root.Final.change Surname v a))) =
          held_data (Root.child2 (fst a))
     else held_data (Root.child2 (fst (Root.Final.change Surname v a))) =
            Some (length (store (snd a)))
          /\ held_data (Root.child2 (fst (Root.Final.change Surname v a))) <>
             held_data (Root.child2 (fst a))).
Proof.
  intros evs v a. split.
  - destruct (String.eqb (Root.name (fst a)) v) eqn:E.
    + unfold Root.Final.change.
      rewrite (change_eq NameProps.Div.Component1 FuncProps.Div.Component2
                 Root.Final.props2), E. reflexivity.
    + destruct (final_change_held evs Name v E)
        as (p & out & p' & out' & Hc & Hc' & _ & Hd & _).
      fold a in Hc, Hc'. rewrite Hc, Hc'. simpl. rewrite Hd. reflexivity.
  - destruct (String.eqb (Root.surname (fst a)) v) eqn:E.
    + unfold Root.Final.change.
      rewrite (change_eq NameProps.Div.Component1 FuncProps.Div.Component2
                 Root.Final.props2), E. reflexivity.
    + destruct (final_change_held evs Surname v E)
        as (p & out & p' & out' & Hc & Hc' & _ & Hd & Hlt).
      fold a in Hc, Hc', Hd, Hlt. rewrite Hc, Hc'. simpl. rewrite Hd.
      split; [reflexivity|]. intros [= Heq]. lia.
Qed.

(** X9. With [func={() => undefined}] written in the JSX, every evaluation of
    [Home] hands [Component2] a function it has never held: a change event
    that changes the text of its input, whichever input it is, replaces the
    [func] that [Component2] holds by a different reference, and a change
    event that carries the text its input already holds changes nothing. *)
Theorem inline_func_is_replaced_on_every_evaluation :
  forall (evs : list (field * string)) (f : field) (v : string),
    let a := Root.InlineFunc.run evs Root.InlineFunc.mount in
    if String.eqb (match f with Name => Root.name (fst a)
                              | Surname => Root.surname (fst a) end) v
    then Root.InlineFunc.change f v a = a
    else held_func (Root.child2 (fst (Root.InlineFunc.change f v a))) <>
         held_func (Root.child2 (fst a))
         /\ held_func (Root.child2 (fst (Root.InlineFunc.change f v a))) <> None.
Proof.
  intros evs f v a.
  unfold Root.InlineFunc.change.
  rewrite (change_eq NameProps.Div.Component1 FuncProps.Div.Component2
             Root.InlineFunc.props2).
  fold a. destruct (String.eqb _ v); [reflexivity|].
  destruct (inline_func_churning evs) as (p & out & Hc & Hlt).
  fold a in Hc, Hlt. unfold fresh_inline_func in Hlt.
  match goal with
  | |- context [Root.Home _ _ _ ?st ?w] =>
      destruct (Home_child2 NameProps.Div.Component1 FuncProps.Div.Component2
                  Root.InlineFunc.props2 st w) as [out' Hc'];
      pose proof (inline_func_func_above (Root.surname st) (Root.slots st) w) as Hge;
      set (p' := fst (fst (Root.InlineFunc.props2 (Root.surname st)
                             (Root.slots st) w))) in *;
      clearbody p'
  end.
  rewrite Hc', Hc. cbn [held_func option_map fst]. split; [|discriminate].
  intros [= Heq]. lia.
Qed.

(** ** Exchanging the wrapper of the leaves *)

Section Wrappers.

Context {P2 : Type} `{PropSet P2}.
Variables C1 C1' : NameProps.Props -> M element.
Variables C2 C2' : P2 -> M element.
Variable props2 : string -> Root.hooks -> M (P2 * Root.hooks).
Context {L1 : Leaf C1} {L1' : Leaf C1'} {L2 : Leaf C2} {L2' : Leaf C2'}.

(** The second pair of leaves logs what the first logs and returns its
    output under [T]. *)
Variable T : element -> element.

Hypothesis same_tag1 : leaf_tag (C := C1') = leaf_tag (C := C1).
Hypothesis same_tag2 : leaf_tag (C := C2') = leaf_tag (C := C2).
Hypothesis view1 : forall h p,
  leaf_view (C := C1') h p = T (leaf_view (C := C1) h p).
Hypothesis view2 : forall h p,
  leaf_view (C := C2') h p = T (leaf_view (C := C2) h p).

Lemma memo_map1 fb p w :
  memo C1' (map_fiber T fb) p w =
  (map_fiber T (fst (fst (memo C1 fb p w))), T (snd (fst (memo C1 fb p w))),
   snd (memo C1 fb p w)).
Proof.
  rewrite (memo_run C1'), (memo_run C1).
  destruct fb as [[q o]|]; simpl; [destruct (shallowEqual _ _)|];
    simpl; rewrite ?same_tag1, ?view1; reflexivity.
Qed.

Lemma memo_map2 fb p w :
  memo C2' (map_fiber T fb) p w =
  (map_fiber T (fst (fst (memo C2 fb p w))), T (snd (fst (memo C2 fb p w))),
   snd (memo C2 fb p w)).
Proof.
  rewrite (memo_run C2'), (memo_run C2).
  destruct fb as [[q o]|]; simpl; [destruct (shallowEqual _ _)|];
    simpl; rewrite ?same_tag2, ?view2; reflexivity.
Qed.

Lemma Home_map st w :
  Root.Home C1' C2' props2 (map_state T st) w =
  map_shown T (Root.Home C1 C2 props2 st w).
Proof.
  rewrite (Home_eq C1' C2' props2), (Home_eq C1 C2 props2). cbv zeta.
  cbn [map_state Root.surname Root.slots Root.child1 Root.child2 Root.name].
  rewrite memo_map1. cbn [fst snd].
  rewrite memo_map2. reflexivity.
Qed.

Lemma change_map f v a :
  Root.change C1' C2' props2 f v (map_shown T a) =
  map_shown T (Root.change C1 C2 props2 f v a).
Proof.
  rewrite (change_eq C1' C2' props2), (change_eq C1 C2 props2).
  cbn [map_shown fst snd map_state Root.name Root.surname].
  destruct (String.eqb _ v); [reflexivity|].
  rewrite <- Home_map. destruct f; reflexivity.
Qed.

Lemma run_map evs : forall a,
  Root.run C1' C2' props2 evs (map_shown T a) =
  map_shown T (Root.run C1 C2 props2 evs a).
Proof.
  induction evs as [|[f v] evs IH]; intros a; [reflexivity|].
  rewrite (run_cons C1' C2' props2), (run_cons C1 C2 props2).
  rewrite change_map. apply IH.
Qed.

Lemma mount_map :
  Root.mount C1' C2' props2 = map_shown T (Root.mount C1 C2 props2).
Proof. unfold Root.mount. rewrite <- Home_map. reflexivity. Qed.

Lemma run_mount_map evs :
  Root.run C1' C2' props2 evs (Root.mount C1' C2' props2) =
  map_shown T (Root.run C1 C2 props2 evs (Root.mount C1 C2 props2)).
Proof. rewrite mount_map. apply run_map. Qed.

End Wrappers.

(** X10. The final code behaves the same over the fragment-based leaves as over
    the [div]-based ones. On the same events the two applications have the
    same state cells and hook slots, the same object store and the same
    console, line for line; their leaves hold the same props, and what they
    show differs only in that each leaf's children sit in a fragment instead
    of a [div]. *)
Theorem fragment_leaves_exchange_in_Home :
  forall evs : list (field * string),
    FinalFragments.run evs FinalFragments.mount =
    map_shown as_fragment (Root.Final.run evs Root.Final.mount).
Proof.
  intros evs.
  apply (run_mount_map (L1 := Leaf_Component1_div) (L1' := Leaf_Component1_frag)
           (L2 := Leaf_Component2_div) (L2' := Leaf_Component2_frag)
           NameProps.Div.Component1 NameProps.Frag.Component1
           FuncProps.Div.Component2 FuncProps.Frag.Component2
           Root.Final.props2 as_fragment eq_refl eq_refl
           (fun _ _ => eq_refl) (fun _ _ => eq_refl) evs).
Qed.

(** ** What [Component1] logs *)

Lemma lines_logged t t' o w :
  lines_of t (logged_world w t' o) =
  (lines_of t w ++ (if String.eqb t' t then [o] else []))%list.
Proof.
  unfold lines_of, logged_world; simpl.
  rewrite filter_app, map_app; simpl.
  destruct (String.eqb t' t); reflexivity.
Qed.

Lemma lines_same_console t w w' :
  console w' = console w -> lines_of t w' = lines_of t w.
Proof. unfold lines_of; intros ->; reflexivity. Qed.

Lemma history_one f cur g v evs :
  history f cur ((g, v) :: evs) =
  (history f cur [(g, v)] ++ history f (cell_after f cur [(g, v)]) evs)%list.
Proof.
  simpl. destruct (field_eqb f g); [|reflexivity].
  destruct (String.eqb cur v) eqn:E; [|reflexivity].
  apply String.eqb_eq in E. subst. reflexivity.
Qed.

Section Logging.

Context {P2 : Type} `{PropSet P2}.
Variable C2 : P2 -> M element.
Variable props2 : string -> Root.hooks -> M (P2 * Root.hooks).
Context `{!Leaf C2}.

Hypothesis tag2 : leaf_tag (C := C2) = "Component2 :: render".
Hypothesis props2_console : forall s hk w,
  console (snd (props2 s hk w)) = console w.

Notation C1 := NameProps.Div.Component1.
Notation Home := (Root.Home C1 C2 props2).
Notation change := (Root.change C1 C2 props2).
Notation run := (Root.run C1 C2 props2).
Notation mount := (Root.mount C1 C2 props2).
Notation lines1 := (lines_of "Component1 :: render").
Notation line n := [("name", VStr n)].

Lemma Home_lines1 st w :
  lines1 (snd (Home st w)) =
  (lines1 w ++
   match Root.child1 st with
   | Some (prev, _) =>
       if String.eqb (NameProps.name prev) (Root.name st) then []
       else [line (Root.name st)]
   | None => [line (Root.name st)]
   end)%list.
Proof.
  rewrite (Home_eq C1 C2 props2). cbv zeta. cbn [snd].
  set (r := props2 _ _ w).
  assert (Hr : lines1 (snd r) = lines1 w)
    by (apply lines_same_console, props2_console).
  rewrite (memo_run C2).
  assert (H1 : lines1 (snd (memo C1 (Root.child1 st)
                 {| NameProps.name := Root.name st |} (snd r))) =
               (lines1 w ++
                match Root.child1 st with
                | Some (prev, _) =>
                    if String.eqb (NameProps.name prev) (Root.name st) then []
                    else [line (Root.name st)]
                | None => [line (Root.name st)]
                end)%list).
  { rewrite (memo_run C1).
    destruct (Root.child1 st) as [[q o]|];
      [rewrite shallowEqual_name; cbn [NameProps.name];
       destruct (String.eqb _ _)|];
      cbn [snd]; rewrite ?lines_logged, ?Hr, ?app_nil_r; reflexivity. }
  destruct (Root.child2 st) as [[q o]|]; [destruct (shallowEqual _ _)|];
    cbn [snd]; rewrite ?lines_logged, ?tag2, ?H1; simpl;
    rewrite ?app_nil_r; reflexivity.
Qed.

Lemma lines1_change f v a :
  named a ->
  lines1 (snd (change f v a)) =
  (lines1 (snd a) ++
   map (fun n => line n) (history Name (Root.name (fst a)) [(f, v)]))%list.
Proof.
  intros [out Hc]. rewrite (change_eq C1 C2 props2). simpl history.
  destruct f; cbn [field_eqb].
  - destruct (String.eqb _ v) eqn:E; [rewrite app_nil_r; reflexivity|].
    rewrite Home_lines1. cbn [Root.child1 Root.name].
    rewrite Hc. cbn [NameProps.name]. rewrite E. reflexivity.
  - destruct (String.eqb _ v) eqn:E; [rewrite app_nil_r; reflexivity|].
    rewrite Home_lines1. cbn [Root.child1 Root.name].
    rewrite Hc. cbn [NameProps.name]. rewrite String.eqb_refl. reflexivity.
Qed.

Lemma lines1_run evs : forall a,
  named a ->
  lines1 (snd (run evs a)) =
  (lines1 (snd a) ++
   map (fun n => line n) (history Name (Root.name (fst a)) evs))%list.
Proof.
  induction evs as [|[f v] evs IH]; intros a Ha;
    [simpl; rewrite app_nil_r; reflexivity|].
  rewrite (run_cons C1 C2 props2), history_one, map_app.
  rewrite IH by (apply (named_change C1 C2 props2), Ha).
  rewrite (lines1_change f v a Ha).
  rewrite (proj1 (cell_after_change C1 C2 props2 f v a)).
  rewrite app_assoc. reflexivity.
Qed.

Lemma lines1_from_mount evs :
  lines1 (snd (run evs mount)) =
  map (fun n => line n) (EmptyString :: history Name EmptyString evs).
Proof.
  rewrite lines1_run by apply (named_Home C1 C2 props2).
  unfold Root.mount. rewrite Home_lines1.
  rewrite (proj1 (Home_cells C1 C2 props2 _ _)). reflexivity.
Qed.

End Logging.

(** X11. The lines that [Component1] logs are the history of the name cell: the
    empty name of the mount, and then each new text of the name input, once
    and in order. Change events of the surname input, and change events
    that carry the text the name input already holds, add no line. *)
Theorem Component1_logs_the_history_of_the_name :
  forall evs : list (field * string),
    let expected :=
      map (fun n => [("name", VStr n)]) (EmptyString :: history Name EmptyString evs) in
    lines_of "Component1 :: render" (snd (Root.Plain.run evs Root.Plain.mount)) = expected
    /\ lines_of "Component1 :: render"
         (snd (Root.InlineData.run evs Root.InlineData.mount)) = expected
    /\ lines_of "Component1 :: render"
         (snd (Root.MemoData.run evs Root.MemoData.mount)) = expected
    /\ lines_of "Component1 :: render"
         (snd (Root.InlineFunc.run evs Root.InlineFunc.mount)) = expected
    /\ lines_of "Component1 :: render"
         (snd (Root.Final.run evs Root.Final.mount)) = expected.
Proof.
  intros evs expected. subst expected. repeat apply conj.
  - exact (lines1_from_mount SurnameProps.Component2 Root.Plain.props2
             eq_refl plain_props2_console evs).
  - exact (lines1_from_mount DataProps.Component2 Root.InlineData.props2
             eq_refl inline_data_props2_console evs).
  - exact (lines1_from_mount DataProps.Component2 Root.MemoData.props2
             eq_refl memo_data_props2_console evs).
  - exact (lines1_from_mount FuncProps.Div.Component2 Root.InlineFunc.props2
             eq_refl inline_func_props2_console evs).
  - exact (lines1_from_mount FuncProps.Div.Component2 Root.Final.props2
             eq_refl final_props2_console evs).
Qed.
